(** * Bangla word web crawler: a shallow embedding of [bangla_word_crawler.py]

    The development follows the class [BanglaWebCrawler]:
    - [fetch_page]       the fetcher with its scheme fallback,
    - [extract_links]    same-netloc link discovery,
    - [search_keywords]  literal substring search of the target words,
    - [crawl_domain]     the per-domain breadth-first loop,
    - [run]              the orchestrator that waits for the domain tasks and
                         then calls [save_results].

    Python [str] values are modelled as [string] (the UTF-8 bytes of the
    text; UTF-8 is self-synchronising, so a byte-level substring test on two
    encoded texts agrees with the code-point-level one).  Python [int]s are
    [Z].  The [set] of visited URLs and the [set] returned by
    [extract_links] are [gset string]; iterating a Python set is modelled by
    [elements], whose order is as unspecified as Python's.  The [deque] is a
    [list] popped at its head and appended at its tail.

    What the program takes from [requests], [bs4] and [urllib.parse] is kept
    behind interfaces ([PyLib], [Network] and [LibRaises]); the theorems
    hold for every implementation of them.  [fetch_page], [extract_links]
    and [crawl_domain] describe the runs in which every library call
    returns; [fetch_page_exc], [extract_links_exc] and [crawl_domain_exc]
    add the [ValueError]s that [urlparse], [urljoin] and [time.sleep] raise
    outside every [try] block. *)

From Stdlib Require Import ZArith Lia Ascii String.
From stdpp Require Import base strings list gmap sets.

Local Open Scope Z_scope.

(** ** Text primitives *)

(** [t.startswith(w)]. *)
Fixpoint startswith (w t : string) : bool :=
  match w, t with
  | EmptyString, _ => true
  | String _ _, EmptyString => false
  | String a w', String b t' => if Ascii.eqb a b then startswith w' t' else false
  end.

(** Literal containment: Python's [w in t], and also
    [re.search(re.escape(w), t)], whose escaped pattern matches exactly the
    text [w] at some position of [t]. *)
Fixpoint contains (w t : string) : bool :=
  startswith w t ||
  match t with
  | EmptyString => false
  | String _ t' => contains w t'
  end.

(** The mathematical notion the two functions above decide. *)
Definition Substring (w t : string) : Prop :=
  ∃ l r : string, t = l +:+ w +:+ r.

(** [s.split("#")[0]]: the part of [s] before its first number sign. *)
Fixpoint split_hash_head (s : string) : string :=
  match s with
  | EmptyString => EmptyString
  | String c s' => if Ascii.eqb c "#"%char then EmptyString else String c (split_hash_head s')
  end.

(** ** The library interfaces *)

(** The six-field named tuple returned by [urlparse]. *)
Record ParseResult := mkParseResult {
  scheme : string;
  netloc : string;
  path : string;
  params : string;
  query : string;
  fragment : string
}.

(** [parsed._replace(scheme=s)]. *)
Definition replace_scheme (p : ParseResult) (s : string) : ParseResult :=
  {| scheme := s; netloc := netloc p; path := path p;
     params := params p; query := query p; fragment := fragment p |}.

(** What the crawler calls from [urllib.parse] and [bs4]:
    - [urlparse u] and [geturl p];
    - [urljoin base href];
    - [soup_get_text html] is
      [BeautifulSoup(html, "lxml").get_text(" ", strip=True)];
    - [soup_anchor_hrefs html] lists [a["href"]] for the tags of
      [BeautifulSoup(html, "lxml").find_all("a", href=True)], in document
      order.
    The functions give the results of the calls that return; on which
    arguments [urlparse] and [urljoin] raise is the matter of [LibRaises]. *)
Class PyLib := {
  urlparse : string → ParseResult;
  geturl : ParseResult → string;
  urljoin : string → string → string;
  soup_get_text : string → string;
  soup_anchor_hrefs : string → list string
}.

(** A response of [requests]: status code, the [Content-Type] header when
    present, and the decoded body [r.text]. *)
Record Response := mkResponse {
  status_code : Z;
  content_type : option string;
  text : string
}.

(** [session.get(url, timeout=10)] either raises a [RequestException]
    (time-out, refused connection, invalid scheme, too many redirects, ...)
    or returns a response. *)
Inductive GetOutcome :=
| GetRaises
| GetReturns (r : Response).

(** The network as seen through the shared session: a state [W] of the
    outside world and the effect of one GET on it. *)
Class Network (W : Type) := {
  session_get : string → W → GetOutcome * W
}.

(** [r.raise_for_status()] raises [HTTPError] (a [RequestException]) for the
    client-error and server-error codes, 400 to 599, and returns for every
    other code. *)
Definition raise_for_status (r : Response) : bool :=
  (400 <=? status_code r) && (status_code r <? 600).

(** [r.headers.get("Content-Type", "")]. *)
Definition header_content_type (r : Response) : string :=
  default EmptyString (content_type r).

(** ** Keyword search *)

Section Search.
Context `{PyLib}.

(** The loop of [search_keywords]: [found] grows at its end by each word
    that [re.search] finds in the text. *)
Definition search_keywords (html : string) (keywords : list string) : list string :=
  let text := soup_get_text html in
  fold_left
    (fun found word => if contains word text then found ++ [word] else found)
    keywords [].

End Search.

(** ** The fetcher *)

(** The session together with the world behind it.  [requests] records, in
    order, the URL of every GET issued so far. *)
Record NetState (W : Type) := mkNetState {
  world : W;
  requests : list string
}.
Arguments mkNetState {W} _ _.
Arguments world {W} _.
Arguments requests {W} _.

(** How one [try] block of [fetch_page] ends: in its [except] clause, by
    [return r.text], or by falling out of the block with nothing returned. *)
Inductive Attempt :=
| AttemptRaised
| AttemptHtml (body : string)
| AttemptNotHtml.

(** Lines 59-62 (and 66-70) after the GET: [raise_for_status], then the
    test ["text/html" in r.headers.get("Content-Type", "")]. *)
Definition attempt (o : GetOutcome) : Attempt :=
  match o with
  | GetRaises => AttemptRaised
  | GetReturns r =>
      if raise_for_status r then AttemptRaised
      else if contains "text/html" (header_content_type r) then AttemptHtml (text r)
      else AttemptNotHtml
  end.

(** ['http' if initial_scheme == 'https' else 'https']. *)
Definition fallback_scheme (initial_scheme : string) : string :=
  if String.eqb initial_scheme "https" then "http" else "https".

Section Fetcher.
Context `{PyLib} {W : Type} `{Network W}.

(** [self.session.get(url, timeout=10)], with the request logged. *)
Definition http_get (url : string) (s : NetState W) : GetOutcome * NetState W :=
  let '(o, w') := session_get url (world s) in
  (o, {| world := w'; requests := requests s ++ [url] |}).

(** [parsed_url._replace(scheme=fallback_scheme).geturl()]. *)
Definition fallback_url (url : string) : string :=
  let parsed_url := urlparse url in
  let initial_scheme := scheme parsed_url in
  geturl (replace_scheme parsed_url (fallback_scheme initial_scheme)).

(** [fetch_page] for a URL that [urlparse] accepts: [None] is Python's
    [None].  ([fetch_page_exc] adds the URLs on which the first line
    raises.) *)
Definition fetch_page (url : string) (s : NetState W) : option string * NetState W :=
  let '(o, s1) := http_get url s in
  match attempt o with
  | AttemptHtml body => (Some body, s1)
  | AttemptNotHtml => (None, s1)
  | AttemptRaised =>
      let '(o_fallback, s2) := http_get (fallback_url url) s1 in
      match attempt o_fallback with
      | AttemptHtml body => (Some body, s2)
      | AttemptRaised | AttemptNotHtml => (None, s2)
      end
  end.

End Fetcher.

(** ** Link extraction *)

Section Extractor.
Context `{PyLib}.

(** The body of the [for a in soup.find_all("a", href=True)] loop. *)
Definition add_link (base_url : string) (links : gset string) (a_href : string) : gset string :=
  let href := urljoin base_url a_href in
  if String.eqb (netloc (urlparse href)) (netloc (urlparse base_url))
  then links ∪ {[ split_hash_head href ]}
  else links.

(** [extract_links] for a page on whose anchors [urljoin] and [urlparse]
    return.  ([extract_links_exc] adds the anchors on which they raise.) *)
Definition extract_links (base_url html : string) : gset string :=
  fold_left (add_link base_url) (soup_anchor_hrefs html) ∅.

End Extractor.

(** ** The domain crawl loop *)

(** One row of the result: [{"URL": url, "Matched Word": word}]. *)
Record MatchRecord := mkMatch {
  URL : string;
  Matched_Word : string
}.

(** The constructor arguments kept by [__init__]. *)
Record BanglaWebCrawler := mkCrawler {
  max_pages_per_domain : Z;
  delay : Z;
  max_workers : Z
}.

(** The variables of [crawl_domain] together with what it shares with the
    rest of the crawler: the list [self.found_matches] and the session. *)
Record CrawlState (W : Type) := mkCrawlState {
  visited : gset string;
  to_visit : list string;
  pages_crawled : Z;
  found_matches : list MatchRecord;
  net : NetState W
}.
Arguments mkCrawlState {W} _ _ _ _ _.
Arguments visited {W} _.
Arguments to_visit {W} _.
Arguments pages_crawled {W} _.
Arguments found_matches {W} _.
Arguments net {W} _.

(** What one iteration of the [while] loop did with the URL it dequeued:
    - [Skipped]: the URL was in [visited] (first [continue]);
    - [FetchedAbsent]: [fetch_page] was called and gave [None] or an empty
      body (second [continue]);
    - [Processed]: [fetch_page] was called and its body was searched and
      scanned for links. *)
Inductive Event :=
| Skipped (url : string)
| FetchedAbsent (url : string)
| Processed (url : string) (html : string).

(** The URLs on which a trace called [fetch_page], in order. *)
Definition fetch_calls (tr : list Event) : list string :=
  omap (fun e => match e with
                 | Skipped _ => None
                 | FetchedAbsent u => Some u
                 | Processed u _ => Some u
                 end) tr.

(** The pages a trace fetched and processed. *)
Definition processed_pages (tr : list Event) : list string :=
  omap (fun e => match e with
                 | Processed u _ => Some u
                 | Skipped _ | FetchedAbsent _ => None
                 end) tr.

(** Where a bounded run of the loop stands when it stops. *)
Inductive LoopStatus :=
| LoopExit
| OutOfFuel.

Section CrawlLoop.
Context `{PyLib} {W : Type} `{Network W}.
Variable self : BanglaWebCrawler.

(** The body of the [while] loop for the dequeued [url], [rest] being the
    queue after [popleft], when no call raises ([loop_body_exc] adds the
    exceptions).  [time.sleep(self.delay)] changes nothing that is modelled.
    The new links are enqueued in the order of [elements], which stands for
    the order in which Python iterates the set; that order depends on the
    hash seed of the process, so it is the order of one run only. *)
Definition loop_body (keywords : list string) (url : string) (rest : list string)
    (st : CrawlState W) : Event * CrawlState W :=
  if decide (url ∈ visited st) then
    (Skipped url,
     {| visited := visited st; to_visit := rest; pages_crawled := pages_crawled st;
        found_matches := found_matches st; net := net st |})
  else
    let visited' := visited st ∪ {[ url ]} in
    let '(html, net') := fetch_page url (net st) in
    match html with
    | None | Some EmptyString =>
        (FetchedAbsent url,
         {| visited := visited'; to_visit := rest; pages_crawled := pages_crawled st;
            found_matches := found_matches st; net := net' |})
    | Some html =>
        let matches := search_keywords html keywords in
        let found' := found_matches st ++ map (mkMatch url) matches in
        let new_links := extract_links url html in
        let to_visit' :=
          rest ++ List.filter (fun link => bool_decide (link ∉ visited')) (elements new_links) in
        (Processed url html,
         {| visited := visited'; to_visit := to_visit'; pages_crawled := pages_crawled st + 1;
            found_matches := found'; net := net' |})
    end.


(** The [while] loop, run for at most [fuel] iterations.  The result is the
    trace of the iterations made, the state reached, and whether the loop
    condition has failed there ([LoopExit]) or iterations remain
    ([OutOfFuel]). *)
Fixpoint crawl_loop (fuel : nat) (keywords : list string) (st : CrawlState W)
    : list Event * CrawlState W * LoopStatus :=
  match to_visit st with
  | [] => ([], st, LoopExit)
  | url :: rest =>
      if pages_crawled st <? max_pages_per_domain self then
        match fuel with
        | O => ([], st, OutOfFuel)
        | S fuel' =>
            let '(e, st') := loop_body keywords url rest st in
            let '(tr, final, status) := crawl_loop fuel' keywords st' in
            (e :: tr, final, status)
        end
      else ([], st, LoopExit)
  end.

(** The state after the three assignments that open [crawl_domain]. *)
Definition seed_url (domain : string) : string := "https://" +:+ domain.

Definition initial_state (domain : string) (found : list MatchRecord) (s : NetState W)
    : CrawlState W :=
  {| visited := ∅; to_visit := [seed_url domain]; pages_crawled := 0;
     found_matches := found; net := s |}.

Definition crawl_domain (fuel : nat) (domain : string) (keywords : list string)
    (found : list MatchRecord) (s : NetState W)
    : list Event * CrawlState W * LoopStatus :=
  crawl_loop fuel keywords (initial_state domain found s).

End CrawlLoop.

(** ** The orchestrator *)

(** How a pool task ends: its callable returned, or an exception escaped
    it (the future then re-raises it from [result()]). *)
Inductive TaskOutcome :=
| TaskReturned
| TaskRaised.

(** What the domain tasks share: [self.found_matches] and the session. *)
Record Shared (W : Type) := mkShared {
  shared_found : list MatchRecord;
  shared_net : NetState W
}.
Arguments mkShared {W} _ _.
Arguments shared_found {W} _.
Arguments shared_net {W} _.

(** A submitted call [self.crawl_domain(domain, words)], as the pool sees
    it: it transforms the shared state and ends in one of the two ways. *)
Definition Task (W : Type) : Type := Shared W → TaskOutcome * Shared W.

(** The rows [save_results] writes: the header, then one row per match in
    the order of [self.found_matches].  (An error while writing is caught
    and logged inside [save_results]; the model is of a write that
    succeeds.) *)
Definition save_results (found : list MatchRecord) : list (list string) :=
  ["URL"; "Matched Word"] :: map (fun m => [URL m; Matched_Word m]) found.

(** How [run] ends.  [output_file] is [None] when [run] wrote no file. *)
Record RunEnd (W : Type) := mkRunEnd {
  run_outcome : TaskOutcome;
  output_file : option (list (list string));
  run_shared : Shared W
}.
Arguments mkRunEnd {W} _ _ _.
Arguments run_outcome {W} _.
Arguments output_file {W} _.
Arguments run_shared {W} _.

Section Orchestrator.
Context {W : Type}.

(** The pool runs every submitted task to its end, whatever the outcome of
    the others: leaving the [with] block calls [shutdown(wait=True)], which
    cancels nothing.  The tasks are taken in submission order, which is the
    schedule of a one-worker pool; with more workers the appends of
    different tasks interleave. *)
Fixpoint executor_run (tasks : list (Task W)) (sh : Shared W)
    : list TaskOutcome * Shared W :=
  match tasks with
  | [] => ([], sh)
  | t :: ts =>
      let '(o, sh1) := t sh in
      let '(os, sh2) := executor_run ts sh1 in
      (o :: os, sh2)
  end.

(** [for future in as_completed(...): future.result()]: the first future
    whose task raised re-raises out of the loop. *)
Fixpoint wait_results (futures : list TaskOutcome) : TaskOutcome :=
  match futures with
  | [] => TaskReturned
  | TaskReturned :: fs => wait_results fs
  | TaskRaised :: _ => TaskRaised
  end.

(** [run]: [crawl domain words] is the submitted call
    [self.crawl_domain(domain, words)].  An exception out of the [with]
    block leaves [run] before [self.save_results(output_file)].  The pool is
    taken to exist: [ThreadPoolExecutor(max_workers=self.max_workers)]
    raises [ValueError] for a worker count below one, before any task is
    submitted. *)
Definition run (crawl : string → list string → Task W)
    (domains words : list string) (sh : Shared W) : RunEnd W :=
  let tasks := map (fun domain => crawl domain words) domains in
  let '(futures, sh') := executor_run tasks sh in
  match wait_results futures with
  | TaskRaised =>
      {| run_outcome := TaskRaised; output_file := None; run_shared := sh' |}
  | TaskReturned =>
      {| run_outcome := TaskReturned;
         output_file := Some (save_results (shared_found sh'));
         run_shared := sh' |}
  end.

End Orchestrator.

(** [crawl_domain] as a pool task, for a run of the loop that exits within
    [fuel] iterations and in which no library call raises. *)
Definition crawl_domain_task `{PyLib} {W : Type} `{Network W}
    (self : BanglaWebCrawler) (fuel : nat) (domain : string) (words : list string)
    : Task W :=
  fun sh =>
    let '(_, final, _) :=
      crawl_domain self fuel domain words (shared_found sh) (shared_net sh) in
    (TaskReturned, {| shared_found := found_matches final; shared_net := net final |}).

(** ** A small implementation of the interfaces

    A reduced URL grammar [scheme://netloc/path?query#fragment], pages whose
    anchors are written [<a href='...'>], and a static site given as a table
    from URLs to responses.  It serves to run the crawler on examples. *)
Module Reference.

(** Split [s] at the first character for which [stop] holds. *)
Fixpoint span_until (stop : ascii → bool) (s : string) : string * string :=
  match s with
  | EmptyString => (EmptyString, EmptyString)
  | String c s' =>
      if stop c then (EmptyString, s)
      else let '(l, r) := span_until stop s' in (String c l, r)
  end.

(** [s] without its prefix [p], when it has that prefix. *)
Fixpoint drop_prefix (p s : string) : option string :=
  match p, s with
  | EmptyString, _ => Some s
  | String _ _, EmptyString => None
  | String a p', String b s' => if Ascii.eqb a b then drop_prefix p' s' else None
  end.

(** Split [s] around the first occurrence of [p]. *)
Fixpoint find_sub (p s : string) : option (string * string) :=
  match drop_prefix p s with
  | Some r => Some (EmptyString, r)
  | None =>
      match s with
      | EmptyString => None
      | String c s' =>
          match find_sub p s' with
          | Some (l, r) => Some (String c l, r)
          | None => None
          end
      end
  end.

Definition is_char (c d : ascii) : bool := Ascii.eqb c d.

Definition tail_of (s : string) : string :=
  match s with
  | EmptyString => EmptyString
  | String _ s' => s'
  end.

Definition ref_urlparse (u : string) : ParseResult :=
  let '(before_frag, frag) := span_until (is_char "#") u in
  let '(before_query, qry) := span_until (is_char "?") before_frag in
  match find_sub "://" before_query with
  | Some (sch, rest) =>
      let '(nl, pth) := span_until (is_char "/") rest in
      {| scheme := sch; netloc := nl; path := pth; params := EmptyString;
         query := tail_of qry; fragment := tail_of frag |}
  | None =>
      {| scheme := EmptyString; netloc := EmptyString; path := before_query;
         params := EmptyString; query := tail_of qry; fragment := tail_of frag |}
  end.

Definition ref_geturl (p : ParseResult) : string :=
  scheme p +:+ "://" +:+ netloc p +:+ path p
  +:+ (if String.eqb (query p) "" then "" else "?" +:+ query p)
  +:+ (if String.eqb (fragment p) "" then "" else "#" +:+ fragment p).

Definition ref_urljoin (base href : string) : string :=
  match find_sub "://" href with
  | Some _ => href
  | None =>
      let b := ref_urlparse base in
      if startswith "/" href
      then scheme b +:+ "://" +:+ netloc b +:+ href
      else scheme b +:+ "://" +:+ netloc b +:+ "/" +:+ href
  end.

(** The text outside the tags. *)
Fixpoint strip_tags (in_tag : bool) (s : string) : string :=
  match s with
  | EmptyString => EmptyString
  | String c s' =>
      if is_char "<" c then strip_tags true s'
      else if is_char ">" c then strip_tags false s'
      else if in_tag then strip_tags in_tag s'
      else String c (strip_tags in_tag s')
  end.

(** The values of the [href='...'] attributes, in order. *)
Fixpoint hrefs_fuel (fuel : nat) (s : string) : list string :=
  match fuel with
  | O => []
  | S fuel' =>
      match find_sub "href='" s with
      | None => []
      | Some (_, rest) =>
          let '(v, rest') := span_until (is_char "'") rest in
          v :: hrefs_fuel fuel' rest'
      end
  end.

Definition ref_anchor_hrefs (html : string) : list string :=
  hrefs_fuel (String.length html) html.

#[global] Instance ref_pylib : PyLib := {|
  urlparse := ref_urlparse;
  geturl := ref_geturl;
  urljoin := ref_urljoin;
  soup_get_text := strip_tags false;
  soup_anchor_hrefs := ref_anchor_hrefs
|}.

(** A static site: the URLs that answer, each with its response; a GET of
    any other URL raises. *)
Definition Site : Type := list (string * Response).

Fixpoint site_lookup (url : string) (site : Site) : GetOutcome :=
  match site with
  | [] => GetRaises
  | (u, r) :: site' => if String.eqb u url then GetReturns r else site_lookup url site'
  end.

#[global] Instance ref_network : Network Site := {|
  session_get := fun url site => (site_lookup url site, site)
|}.

Definition html_page (body : string) : Response :=
  {| status_code := 200; content_type := Some "text/html; charset=utf-8"; text := body |}.

Definition start (site : Site) : NetState Site :=
  {| world := site; requests := [] |}.

End Reference.

Import Reference.

(** ** Example sites *)

Definition secure_down : Site :=
  [("http://site.test", html_page "<p>plain</p>")].

(** [https://site.test] answers 300 (Multiple Choices) with an HTML list of
    the choices; [requests] follows a redirect only for 301, 302, 303, 307
    and 308 with a [Location] header, so this response is the one
    [session.get] returns. *)
Definition multiple_choices : Site :=
  [("https://site.test",
    {| status_code := 300; content_type := Some "text/html";
       text := "<a href='/en'>en</a><a href='/bn'>bn</a>" |});
   ("http://site.test", html_page "<p>plain</p>")].

Definition pdf_site : Site :=
  [("https://site.test/doc",
    {| status_code := 200; content_type := Some "application/pdf"; text := "%PDF-1.7" |});
   ("http://site.test/doc", html_page "<p>doc</p>")].

(** The scenario of the specification: the root page of [d1.test] says
    hello and links to [/page2], which has none of the words. *)
Definition d1_site : Site :=
  [("https://d1.test", html_page "<p>hello world</p><a href='/page2'>next</a>");
   ("https://d1.test/page2", html_page "<p>nothing here</p>")].

(** [/b] is linked from the root page and from [/a]. *)
Definition diamond_site : Site :=
  [("https://w.test", html_page "<a href='/a'>a</a><a href='/b'>b</a>");
   ("https://w.test/a", html_page "<p>a</p><a href='/b'>b</a><a href='/b#top'>b</a>");
   ("https://w.test/b", html_page "<p>b</p>")].

(** The root page links to three pages, of which only one answers. *)
Definition sparse_site : Site :=
  [("https://s.test", html_page "<a href='/a'>a</a><a href='/b'>b</a><a href='/c'>c</a>");
   ("https://s.test/b", html_page "<p>b</p>")].

(** [f.test] answers over plain HTTP only. *)
Definition plain_site : Site :=
  [("http://f.test", html_page "<p>hello</p><a href='/next'>next</a>")].

Definition default_crawler : BanglaWebCrawler :=
  {| max_pages_per_domain := 100; delay := 1; max_workers := 10 |}.

Definition two_page_crawler : BanglaWebCrawler :=
  {| max_pages_per_domain := 2; delay := 1; max_workers := 1 |}.

(** ** The input files and the command line

    For the files, a Python [str] is the sequence of its code points.  A
    file system maps the path of each file that exists to its content, the
    text as stored. *)

Definition codepoint : Type := N.
Definition pystr : Type := list N.

Definition LF : N := 10%N.
Definition CR : N := 13%N.

(** The characters [str.strip()] removes: the code points for which
    [str.isspace] holds. *)
Definition isspace (c : N) : bool :=
  ((9 <=? c) && (c <=? 13) || (28 <=? c) && (c <=? 32)
   || (c =? 133) || (c =? 160) || (c =? 5760)
   || (8192 <=? c) && (c <=? 8202)
   || (c =? 8232) || (c =? 8233) || (c =? 8239) || (c =? 8287) || (c =? 12288))%N.

Fixpoint lstrip (s : pystr) : pystr :=
  match s with
  | [] => []
  | c :: s' => if isspace c then lstrip s' else s
  end.

Definition rstrip (s : pystr) : pystr := reverse (lstrip (reverse s)).

(** [s.strip()]. *)
Definition strip (s : pystr) : pystr := lstrip (rstrip s).

(** What reading in text mode (universal newlines) makes of the stored
    text: [\r\n] and a lone [\r] become [\n]. *)
Fixpoint universal_newlines (raw : pystr) : pystr :=
  match raw with
  | [] => []
  | c :: raw' =>
      if (c =? CR)%N then
        LF :: match raw' with
              | [] => []
              | c' :: raw'' =>
                  if (c' =? LF)%N then universal_newlines raw''
                  else universal_newlines raw'
              end
      else c :: universal_newlines raw'
  end.

(** What writing in text mode stores: each [\n] becomes [os.linesep]. *)
Definition write_newlines (linesep : pystr) (t : pystr) : pystr :=
  flat_map (fun c => if (c =? LF)%N then linesep else [c]) t.

(** [for line in f]: the lines of the text, each with its [\n] but for a
    last line that has none. *)
Fixpoint readlines (t : pystr) : list pystr :=
  match t with
  | [] => []
  | c :: t' =>
      if (c =? LF)%N then [c] :: readlines t'
      else match readlines t' with
           | [] => [[c]]
           | line :: lines => (c :: line) :: lines
           end
  end.

(** [[line.strip() for line in f if line.strip()]]. *)
Definition stripped_lines (t : pystr) : list pystr :=
  map strip (List.filter (fun line => negb (bool_decide (strip line = []))) (readlines t)).

(** [load_file_content]: [None] when the file does not exist
    ([FileNotFoundError], logged). *)
Definition load_file_content (fs : gmap string pystr) (file_path : string)
    : option (list pystr) :=
  match fs !! file_path with
  | None => None
  | Some raw => Some (stripped_lines (universal_newlines raw))
  end.

(** [sep.join(l)]. *)
Fixpoint py_join (sep : pystr) (l : list pystr) : pystr :=
  match l with
  | [] => []
  | [x] => x
  | x :: l' => x ++ sep ++ py_join sep l'
  end.

(** The code points of a string of ASCII characters. *)
Definition of_ascii (s : string) : pystr :=
  map N_of_ascii (list_ascii_of_string s).

Definition sample_domains : list pystr :=
  [of_ascii "example.com"; of_ascii "wikipedia.org"].

(** The three Bangla sample words, code point by code point. *)
Definition sample_words : list pystr :=
  [[2476; 2494; 2434; 2482; 2494; 2470; 2503; 2486];
   [2438; 2478; 2494; 2470; 2503; 2480];
   [2488; 2475; 2463; 2451; 2527; 2509; 2479; 2494; 2480]]%N.

(** [open(path, 'w', ...).write(t)]: the file is created or replaced. *)
Definition write_file (linesep : pystr) (path : string) (t : pystr)
    (fs : gmap string pystr) : gmap string pystr :=
  <[path := write_newlines linesep t]> fs.

(** [create_sample_files], [linesep] being [os.linesep].  The line its
    last statement logs goes to the console and to [crawler.log]; the log
    file is not part of the modelled contents. *)
Definition create_sample_files (linesep : pystr) (fs : gmap string pystr)
    : gmap string pystr :=
  write_file linesep "word_list.txt" (py_join [LF] sample_words)
    (write_file linesep "domain_list.txt" (py_join [LF] sample_domains) fs).

(** The namespace [parse_args] returns; [--domains] and [--words] are
    [None] when not given. *)
Record Args := mkArgs {
  args_domains : option string;
  args_words : option string;
  args_output : string;
  args_max_pages : Z;
  args_workers : Z;
  args_create_samples : bool
}.

(** How [main] ends: after writing the sample files, in [parser.error]
    (usage message and exit), by the bare [return] that follows the loading
    of the lists, or with the call [crawler.run(domains, words,
    args.output)] on the crawler it built. *)
Inductive MainEnd :=
| SamplesCreated (fs' : gmap string pystr)
| ParserError
| NothingToCrawl
| RunCalled (crawler : BanglaWebCrawler) (domains words : list pystr) (output : string).

(** [not x] for an optional string: [None] and the empty string are
    false. *)
Definition not_given (x : option string) : bool :=
  match x with
  | None => true
  | Some s => String.eqb s ""
  end.

(** [not l] for the result of [load_file_content]. *)
Definition nothing_loaded (l : option (list pystr)) : bool :=
  match l with
  | None | Some [] => true
  | Some (_ :: _) => false
  end.

Definition main (linesep : pystr) (args : Args) (fs : gmap string pystr) : MainEnd :=
  if args_create_samples args then SamplesCreated (create_sample_files linesep fs)
  else if not_given (args_domains args) || not_given (args_words args) then ParserError
  else
    let domains := load_file_content fs (default EmptyString (args_domains args)) in
    let words := load_file_content fs (default EmptyString (args_words args)) in
    if nothing_loaded domains || nothing_loaded words then NothingToCrawl
    else
      let crawler :=
        {| max_pages_per_domain := args_max_pages args; delay := 1;
           max_workers := args_workers args |} in
      RunCalled crawler (default [] domains) (default [] words) (args_output args).

(** ** Library calls that raise

    [urlparse] and [urljoin] raise [ValueError] on some inputs (a network
    location with an unmatched bracket, as in [https://[]).  [crawl_domain]
    calls them outside every [try] block: [urlparse(url)] in the first line
    of [fetch_page], and [urljoin(base_url, a["href"])], [urlparse(href)]
    and [urlparse(base_url)] in the loop of [extract_links].  So does
    [time.sleep(self.delay)], at the end of the loop body, for a negative
    delay.  The definitions above describe the calls that return; the ones
    below add the calls that raise. *)
Class LibRaises := {
  urlparse_raises : string → bool;
  urljoin_raises : string → string → bool
}.

(** How an iteration of the [while] loop ends: at the end of its body (or
    at one of its [continue]s), or by an exception that leaves
    [crawl_domain]. *)
Inductive IterEnd (W : Type) :=
| IterDone (e : Event) (st : CrawlState W)
| IterRaised (st : CrawlState W).
Arguments IterDone {W} _ _.
Arguments IterRaised {W} _.

(** How a bounded run of the loop stands when it stops: the loop condition
    failed, an exception left the loop, or iterations remain. *)
Inductive CrawlEnd :=
| EndExit
| EndRaised
| EndOutOfFuel.

Section Raising.
Context `{PyLib} `{LibRaises} {W : Type} `{Network W}.
Variable self : BanglaWebCrawler.

(** [fetch_page], with [None] for the [ValueError] of [urlparse(url)],
    raised before any request is made. *)
Definition fetch_page_exc (url : string) (s : NetState W)
    : option (option string * NetState W) :=
  if urlparse_raises url then None else Some (fetch_page url s).

(** Whether the body of the loop of [extract_links] raises for the anchor. *)
Definition anchor_raises (base_url a_href : string) : bool :=
  urljoin_raises base_url a_href
  || urlparse_raises (urljoin base_url a_href)
  || urlparse_raises base_url.

(** [extract_links], with [None] for a [ValueError] raised at an anchor. *)
Definition extract_links_exc (base_url html : string) : option (gset string) :=
  if existsb (anchor_raises base_url) (soup_anchor_hrefs html) then None
  else Some (extract_links base_url html).

(** [time.sleep(self.delay)] raises [ValueError] for a negative delay. *)
Definition sleep_raises : bool := delay self <? 0.

(** The body of the [while] loop, exceptions included.  An exception from
    [fetch_page] leaves the URL marked as visited; one from [extract_links]
    comes after the matches of the page were appended to
    [self.found_matches]; one from [time.sleep] comes after the links were
    enqueued and the page counted. *)
Definition loop_body_exc (keywords : list string) (url : string) (rest : list string)
    (st : CrawlState W) : IterEnd W :=
  if decide (url ∈ visited st) then
    IterDone (Skipped url)
      {| visited := visited st; to_visit := rest; pages_crawled := pages_crawled st;
         found_matches := found_matches st; net := net st |}
  else
    let visited' := visited st ∪ {[ url ]} in
    match fetch_page_exc url (net st) with
    | None =>
        IterRaised
          {| visited := visited'; to_visit := rest; pages_crawled := pages_crawled st;
             found_matches := found_matches st; net := net st |}
    | Some (None, net') | Some (Some EmptyString, net') =>
        IterDone (FetchedAbsent url)
          {| visited := visited'; to_visit := rest; pages_crawled := pages_crawled st;
             found_matches := found_matches st; net := net' |}
    | Some (Some html, net') =>
        let matches := search_keywords html keywords in
        let found' := found_matches st ++ map (mkMatch url) matches in
        match extract_links_exc url html with
        | None =>
            IterRaised
              {| visited := visited'; to_visit := rest;
                 pages_crawled := pages_crawled st;
                 found_matches := found'; net := net' |}
        | Some new_links =>
            let to_visit' :=
              rest ++ List.filter (fun link => bool_decide (link ∉ visited'))
                        (elements new_links) in
            let st' :=
              {| visited := visited'; to_visit := to_visit';
                 pages_crawled := pages_crawled st + 1;
                 found_matches := found'; net := net' |} in
            if sleep_raises then IterRaised st'
            else IterDone (Processed url html) st'
        end
    end.

(** The [while] loop, exceptions included, run for at most [fuel]
    iterations: the trace of the iterations that ended, the state reached,
    and how the run stands. *)
Fixpoint crawl_loop_exc (fuel : nat) (keywords : list string) (st : CrawlState W)
    : list Event * CrawlState W * CrawlEnd :=
  match to_visit st with
  | [] => ([], st, EndExit)
  | url :: rest =>
      if pages_crawled st <? max_pages_per_domain self then
        match fuel with
        | O => ([], st, EndOutOfFuel)
        | S fuel' =>
            match loop_body_exc keywords url rest st with
            | IterRaised st' => ([], st', EndRaised)
            | IterDone e st' =>
                let '(tr, final, how) := crawl_loop_exc fuel' keywords st' in
                (e :: tr, final, how)
            end
        end
      else ([], st, EndExit)
  end.

Definition crawl_domain_exc (fuel : nat) (domain : string) (keywords : list string)
    (found : list MatchRecord) (s : NetState W)
    : list Event * CrawlState W * CrawlEnd :=
  crawl_loop_exc fuel keywords (initial_state domain found s).

End Raising.

(** [crawl_domain] as a pool task, exceptions included: the task raises
    when a library call of the crawl raises, as on the domain line [[],
    whose seed URL [https://[] makes [urlparse] raise [ValueError] in the
    first line of [fetch_page], outside its [try] block. *)
Definition crawl_or_raise `{PyLib} `{LibRaises} {W : Type} `{Network W}
    (self : BanglaWebCrawler) (fuel : nat) (domain : string) (words : list string)
    : Task W :=
  fun sh =>
    let '(_, final, how) :=
      crawl_domain_exc self fuel domain words (shared_found sh) (shared_net sh) in
    (match how with
     | EndRaised => TaskRaised
     | EndExit | EndOutOfFuel => TaskReturned
     end,
     {| shared_found := found_matches final; shared_net := net final |}).

(** The reference [urlparse] raises for a network location with one kind
    of bracket only (the check of [urlsplit] that gives [Invalid IPv6 URL]),
    and the reference [urljoin] when one of its arguments does not parse. *)
Definition ref_urlparse_raises (u : string) : bool :=
  xorb (contains "[" (netloc (ref_urlparse u))) (contains "]" (netloc (ref_urlparse u))).

Definition ref_urljoin_raises (base href : string) : bool :=
  ref_urlparse_raises base || ref_urlparse_raises href.

#[global] Instance ref_raises : LibRaises := {|
  urlparse_raises := ref_urlparse_raises;
  urljoin_raises := ref_urljoin_raises
|}.

(** [/a] and [/b] are linked from the root page; [/a] carries an anchor
    whose href does not parse. *)
Definition broken_anchor_site : Site :=
  [("https://d2.test", html_page "<p>hello</p><a href='/a'>a</a><a href='/b'>b</a>");
   ("https://d2.test/a", html_page "<p>hello</p><a href='http://['>broken</a>");
   ("https://d2.test/b", html_page "<p>b</p>")].

(** [f.test] answers over plain HTTP only, and its page links to itself
    under that scheme. *)
Definition self_link_site : Site :=
  [("http://f.test", html_page "<p>hello</p><a href='http://f.test'>home</a>")].

(** ** The host of a network location

    [ParseResult.hostname] as [urllib] computes it from the netloc: what
    follows the last [@]; of that, the part inside the brackets when there
    is an opening bracket, and otherwise the part before the first colon;
    in lower case up to a [%], for the ASCII letters. *)

(** [s.partition(c)]: the text before the first [c], whether there is one,
    and the text after it. *)
Fixpoint partition (c : ascii) (s : string) : string * bool * string :=
  match s with
  | EmptyString => (EmptyString, false, EmptyString)
  | String d s' =>
      if Ascii.eqb d c then (EmptyString, true, s')
      else let '(before, found, after) := partition c s' in (String d before, found, after)
  end.

(** The last component of [s.rpartition(c)]. *)
Fixpoint after_last (c : ascii) (s : string) : string :=
  match s with
  | EmptyString => EmptyString
  | String d s' =>
      if contains (String c EmptyString) s' then after_last c s'
      else if Ascii.eqb d c then s' else s
  end.

Definition lower_ascii (c : ascii) : ascii :=
  let n := nat_of_ascii c in
  if (65 <=? n)%nat && (n <=? 90)%nat then ascii_of_nat (n + 32) else c.

Fixpoint lower (s : string) : string :=
  match s with
  | EmptyString => EmptyString
  | String c s' => String (lower_ascii c) (lower s')
  end.

Definition hostname_of (netloc : string) : option string :=
  let hostinfo := after_last "@" netloc in
  let '(_, have_open_br, bracketed) := partition "[" hostinfo in
  let hostname :=
    if have_open_br then (partition "]" bracketed).1.1
    else (partition ":" hostinfo).1.1 in
  match hostname with
  | EmptyString => None
  | String _ _ =>
      let '(name, percent, zone) := partition "%" hostname in
      Some (lower name +:+ (if percent then "%" else "") +:+ zone)
  end.


(** * Properties *)

(** ** Text primitives *)

Lemma startswith_spec (w t : string) :
  startswith w t = true ↔ ∃ r : string, t = w +:+ r.
Proof.
  revert t. induction w as [|a w IH]; intros t; simpl.
  - split; [intros _; by exists t | done].
  - destruct t as [|b t].
    + split; [done | intros [r Hr]; discriminate Hr].
    + destruct (Ascii.eqb_spec a b) as [->|Hne].
      * rewrite IH. split; intros [r Hr]; exists r; [by rewrite Hr | by injection Hr].
      * split; [done | intros [r Hr]; injection Hr as Hab _; by destruct Hne].
Qed.

Lemma append_cons (c : ascii) (a b : string) :
  String c a +:+ b = String c (a +:+ b).
Proof. reflexivity. Qed.

Lemma contains_spec (w t : string) : contains w t = true ↔ Substring w t.
Proof.
  unfold Substring. induction t as [|b t IH].
  - simpl. rewrite orb_false_r, startswith_spec. split.
    + intros [r Hr]. by exists EmptyString, r.
    + intros [[|c l] [r Hr]]; [by exists r | discriminate Hr].
  - cbn [contains]. rewrite orb_true_iff, startswith_spec, IH. split.
    + intros [[r Hr] | (l & r & Hr)].
      * by exists EmptyString, r.
      * exists (String b l), r. simpl. by rewrite Hr.
    + intros [[|c l] [r Hr]].
      * left. by exists r.
      * right. exists l, r. simpl in Hr. by injection Hr.
Qed.

#[global] Instance Substring_dec (w t : string) : Decision (Substring w t).
Proof.
  destruct (contains w t) eqn:E.
  - left. by apply contains_spec.
  - right. intros Hs. apply contains_spec in Hs. congruence.
Defined.

Lemma split_hash_head_no_hash (s : string) :
  contains "#" (split_hash_head s) = false.
Proof.
  induction s as [|c s IH]; [done |].
  simpl. destruct (Ascii.eqb_spec c "#"%char) as [->|Hne]; [done |].
  cbn [contains startswith]. rewrite IH.
  destruct (Ascii.eqb_spec "#"%char c) as [<-|_]; [by destruct Hne | done].
Qed.

Lemma split_hash_head_prefix (s : string) :
  ∃ r : string, s = split_hash_head s +:+ r.
Proof.
  induction s as [|c s [r IH]]; [by exists EmptyString |].
  simpl. destruct (Ascii.eqb c "#"%char).
  - by exists (String c s).
  - exists r. rewrite append_cons. by f_equal.
Qed.

Lemma split_hash_head_id (s : string) :
  contains "#" s = false → split_hash_head s = s.
Proof.
  induction s as [|c s IH]; [done |].
  cbn [contains startswith split_hash_head].
  rewrite Ascii.eqb_sym. destruct (Ascii.eqb c "#"%char); simpl; [done |].
  intros Hs. by rewrite IH.
Qed.

(** ** Keyword search *)

Section SearchFacts.
Context `{PyLib}.

Lemma search_loop_filter (text : string) (keywords found : list string) :
  fold_left
    (fun found word => if contains word text then found ++ [word] else found)
    keywords found
  = found ++ filter (λ w, Substring w text) keywords.
Proof.
  revert found. induction keywords as [|w ws IH]; intros found; simpl.
  - by rewrite app_nil_r.
  - rewrite IH. rewrite filter_cons.
    destruct (decide (Substring w text)) as [Hs|Hs].
    + apply contains_spec in Hs. rewrite Hs. by rewrite <- (assoc_L (++)).
    + destruct (contains w text) eqn:E; [|done].
      apply contains_spec in E. by destruct Hs.
Qed.

(** C4: [search_keywords] returns exactly the words of the list that occur
    as a literal substring of the page text, in the order of the list: it is
    the list filtered by [Substring], hence a subsequence of it, and a word
    is returned if and only if it is in the list and occurs in the text. *)
Theorem search_keywords_subsequence (html : string) (keywords : list string) :
  search_keywords html keywords
    = filter (λ w, Substring w (soup_get_text html)) keywords
  ∧ sublist (search_keywords html keywords) keywords
  ∧ ∀ w : string,
      w ∈ search_keywords html keywords
      ↔ w ∈ keywords ∧ Substring w (soup_get_text html).
Proof.
  assert (search_keywords html keywords
          = filter (λ w, Substring w (soup_get_text html)) keywords) as E.
  { unfold search_keywords. by rewrite search_loop_filter. }
  rewrite E. split; [done |]. split.
  - apply sublist_filter.
  - intros w. rewrite list_elem_of_filter. tauto.
Qed.

End SearchFacts.

(** The example of the specification: the word is found although nothing
    delimits it in the text. *)
Example search_inside_unbroken_text :
  search_keywords
    "<p>আমাদেরসফটওয়্যার</p>" ["বাংলাদেশ"; "আমাদের"; "সফটওয়্যার"]
  = ["আমাদের"; "সফটওয়্যার"].
Proof. reflexivity. Qed.

(** Matching distinguishes upper and lower case. *)
Example search_case_sensitive :
  search_keywords "<p>Hello World</p>" ["hello"; "World"; "lo W"]
  = ["World"; "lo W"].
Proof. reflexivity. Qed.

(** ** The fetcher *)

Lemma attempt_raised_iff (o : GetOutcome) :
  attempt o = AttemptRaised
  ↔ o = GetRaises ∨ ∃ r : Response, o = GetReturns r ∧ 400 ≤ status_code r < 600.
Proof.
  destruct o as [|r]; simpl.
  - split; [by left | done].
  - unfold raise_for_status.
    destruct (Z.leb_spec 400 (status_code r)), (Z.ltb_spec (status_code r) 600); simpl.
    + split; [intros _; right; exists r; split; [done | lia] | done].
    + split.
      * destruct (contains _ _); discriminate.
      * intros [Hr | (r' & Hr & Hs)]; [discriminate Hr | injection Hr as <-; lia].
    + split.
      * destruct (contains _ _); discriminate.
      * intros [Hr | (r' & Hr & Hs)]; [discriminate Hr | injection Hr as <-; lia].
    + split.
      * destruct (contains _ _); discriminate.
      * intros [Hr | (r' & Hr & Hs)]; [discriminate Hr | injection Hr as <-; lia].
Qed.

Lemma attempt_not_html_iff (o : GetOutcome) :
  attempt o = AttemptNotHtml
  ↔ ∃ r : Response, o = GetReturns r ∧ ¬ (400 ≤ status_code r < 600)
      ∧ ¬ Substring "text/html" (header_content_type r).
Proof.
  destruct o as [|r]; simpl.
  - split; [done | intros (r & Hr & _); discriminate Hr].
  - unfold raise_for_status. split.
    + destruct (Z.leb_spec 400 (status_code r)), (Z.ltb_spec (status_code r) 600);
        simpl; try done;
        (destruct (contains _ _) eqn:E; [done |]; intros _; exists r;
         split; [done |]; split; [lia |];
         intros Hs; apply contains_spec in Hs; congruence).
    + intros (r' & Hr & Hs & Hc). injection Hr as <-.
      destruct (Z.leb_spec 400 (status_code r)), (Z.ltb_spec (status_code r) 600);
        simpl; try lia;
        (destruct (contains _ _) eqn:E; [apply contains_spec in E; by destruct Hc | done]).
Qed.

Section FetcherFacts.
Context `{PyLib} {W : Type} `{Network W}.

Lemma http_get_requests (url : string) (s : NetState W) :
  requests (http_get url s).2 = requests s ++ [url]
  ∧ (http_get url s).1 = (session_get url (world s)).1
  ∧ world (http_get url s).2 = (session_get url (world s)).2.
Proof. unfold http_get. by destruct (session_get url (world s)). Qed.

(** The fallback URL is the parsed URL put together again with nothing but
    its scheme replaced. *)
Lemma fallback_url_components (url : string) :
  ∃ p : ParseResult,
    fallback_url url = geturl p
    ∧ scheme p = fallback_scheme (scheme (urlparse url))
    ∧ netloc p = netloc (urlparse url)
    ∧ path p = path (urlparse url)
    ∧ params p = params (urlparse url)
    ∧ query p = query (urlparse url)
    ∧ fragment p = fragment (urlparse url).
Proof. by eexists (replace_scheme _ _). Qed.

(** [fetch_page] issues one GET or two, the first for the URL itself. *)
Lemma fetch_page_requests (url : string) (s : NetState W) :
  requests (fetch_page url s).2 = requests s ++ [url]
  ∨ requests (fetch_page url s).2 = requests s ++ [url; fallback_url url].
Proof.
  unfold fetch_page.
  pose proof (http_get_requests url s) as (Hr & _).
  destruct (http_get url s) as [o s1]. simpl in Hr.
  destruct (attempt o); [| by left | by left].
  pose proof (http_get_requests (fallback_url url) s1) as (Hr2 & _).
  destruct (http_get (fallback_url url) s1) as [o2 s2]. simpl in Hr2.
  right. replace (requests s ++ [url; fallback_url url])
    with ((requests s ++ [url]) ++ [fallback_url url])
    by (by rewrite <- (assoc_L (++))).
  rewrite <- Hr, <- Hr2. by destruct (attempt o2).
Qed.

End FetcherFacts.

Section FetcherClaims.
Context `{PyLib} {W : Type} `{Network W}.

(** C6 (amended): when the first GET of [fetch_page] ends in a
    [RequestException] (the GET itself raises, or the response has a 4xx or
    5xx status, for which [raise_for_status] raises), exactly one further
    GET is issued, for the URL put together again from the parsed one with
    only its scheme replaced ([http] for [https], [https] otherwise; same
    netloc, path and query).  The result is then the fallback's body when
    that attempt yields HTML and [None] otherwise, in particular when the
    fallback ends in a [RequestException] too. *)
Theorem fetch_page_one_retry (url : string) (s : NetState W) :
  let first := session_get url (world s) in
  (first.1 = GetRaises
   ∨ ∃ r : Response, first.1 = GetReturns r ∧ 400 ≤ status_code r < 600) →
  let second := session_get (fallback_url url) first.2 in
  requests (fetch_page url s).2 = requests s ++ [url; fallback_url url]
  ∧ world (fetch_page url s).2 = second.2
  ∧ (fetch_page url s).1
      = match attempt second.1 with
        | AttemptHtml body => Some body
        | AttemptRaised | AttemptNotHtml => None
        end
  ∧ ((second.1 = GetRaises
      ∨ ∃ r : Response, second.1 = GetReturns r ∧ 400 ≤ status_code r < 600) →
     (fetch_page url s).1 = None)
  ∧ ∃ p : ParseResult,
      fallback_url url = geturl p
      ∧ scheme p = (if String.eqb (scheme (urlparse url)) "https" then "http" else "https")
      ∧ netloc p = netloc (urlparse url)
      ∧ path p = path (urlparse url)
      ∧ query p = query (urlparse url).
Proof.
  intros first Hfail second. subst first second.
  apply attempt_raised_iff in Hfail.
  unfold fetch_page, http_get.
  destruct (session_get url (world s)) as [o w1]. simpl in *. rewrite Hfail.
  destruct (session_get (fallback_url url) w1) as [o2 w2]. simpl.
  split_and!.
  - rewrite <- (assoc_L (++)). by destruct (attempt o2).
  - by destruct (attempt o2).
  - by destruct (attempt o2).
  - intros Hfail2. apply attempt_raised_iff in Hfail2. by rewrite Hfail2.
  - destruct (fallback_url_components url) as (p & ? & ? & ? & ? & ? & ? & ?).
    by exists p.
Qed.

(** C7 (amended): a response that [raise_for_status] accepts (every 2xx
    among them) and whose content type does not contain [text/html] makes
    [fetch_page] return [None] after that single GET: the alternate scheme
    is not tried. *)
Theorem fetch_page_non_html_no_fallback (url : string) (s : NetState W) (r : Response) :
  (session_get url (world s)).1 = GetReturns r →
  ¬ (400 ≤ status_code r < 600) →
  ¬ Substring "text/html" (header_content_type r) →
  (fetch_page url s).1 = None
  ∧ requests (fetch_page url s).2 = requests s ++ [url].
Proof.
  intros Hget Hstatus Hct.
  assert (attempt (session_get url (world s)).1 = AttemptNotHtml) as Ha.
  { apply attempt_not_html_iff. by exists r. }
  unfold fetch_page, http_get.
  destruct (session_get url (world s)) as [o w1]. simpl in *. by rewrite Ha.
Qed.

End FetcherClaims.

(** Witness of C6 (amended): [https://site.test] refuses connections and
    [http://site.test] serves a page. *)
Lemma fetch_page_one_retry_witness :
  requests (fetch_page "https://site.test" (start secure_down)).2
    = ["https://site.test"; "http://site.test"]
  ∧ (fetch_page "https://site.test" (start secure_down)).1 = Some "<p>plain</p>".
Proof.
  destruct (fetch_page_one_retry "https://site.test" (start secure_down))
    as (Hreq & _ & Hres & _).
  - left. reflexivity.
  - split; [exact Hreq | exact Hres].
Defined.

(** Counterexample to C6 as stated: the first response has the non-2xx
    status 300, and [fetch_page] returns its body after that one GET; the
    URL with the other scheme is never requested. *)
Lemma fetch_page_3xx_not_retried :
  (session_get "https://site.test" multiple_choices).1
    = GetReturns {| status_code := 300; content_type := Some "text/html";
                    text := "<a href='/en'>en</a><a href='/bn'>bn</a>" |}
  ∧ ¬ (200 ≤ 300 < 300)
  ∧ fetch_page "https://site.test" (start multiple_choices)
    = (Some "<a href='/en'>en</a><a href='/bn'>bn</a>",
       {| world := multiple_choices; requests := ["https://site.test"] |})
  ∧ fallback_url "https://site.test" = "http://site.test"
  ∧ requests (fetch_page "https://site.test" (start multiple_choices)).2
    ≠ ["https://site.test"; fallback_url "https://site.test"].
Proof.
  split_and!; [reflexivity | lia | reflexivity | reflexivity | discriminate].
Qed.

(** Witness of C7 (amended). *)
Lemma fetch_page_non_html_no_fallback_witness :
  (fetch_page "https://site.test/doc" (start pdf_site)).1 = None
  ∧ requests (fetch_page "https://site.test/doc" (start pdf_site)).2
    = ["https://site.test/doc"].
Proof.
  apply (fetch_page_non_html_no_fallback "https://site.test/doc" (start pdf_site)
           {| status_code := 200; content_type := Some "application/pdf";
              text := "%PDF-1.7" |}).
  - reflexivity.
  - simpl. lia.
  - intros Hs. apply contains_spec in Hs. discriminate Hs.
Defined.

(** Counterexample to C7 as stated: a 200 response of type
    [application/pdf] ends [fetch_page] with [None] after one GET, although
    the URL with the other scheme would have served HTML. *)
Lemma fetch_page_pdf_not_retried :
  fetch_page "https://site.test/doc" (start pdf_site)
    = (None, {| world := pdf_site; requests := ["https://site.test/doc"] |})
  ∧ fallback_url "https://site.test/doc" = "http://site.test/doc"
  ∧ ("http://site.test/doc"
       ∉ requests (fetch_page "https://site.test/doc" (start pdf_site)).2)
  ∧ (fetch_page "http://site.test/doc" (start pdf_site)).1 = Some "<p>doc</p>".
Proof.
  split_and!; [reflexivity | reflexivity | | reflexivity].
  assert (requests (fetch_page "https://site.test/doc" (start pdf_site)).2
          = ["https://site.test/doc"]) as -> by reflexivity.
  rewrite list_elem_of_singleton. discriminate.
Qed.

(** ** Link extraction *)

Section ExtractorFacts.
Context `{PyLib}.

Lemma elem_of_add_link (base_url : string) (links : gset string) (a link : string) :
  link ∈ add_link base_url links a
  ↔ link ∈ links
    ∨ (netloc (urlparse (urljoin base_url a)) = netloc (urlparse base_url)
       ∧ link = split_hash_head (urljoin base_url a)).
Proof.
  unfold add_link.
  destruct (String.eqb_spec (netloc (urlparse (urljoin base_url a)))
              (netloc (urlparse base_url))) as [E|E].
  - rewrite elem_of_union, elem_of_singleton. tauto.
  - tauto.
Qed.

Lemma elem_of_extract_loop (base_url : string) (hrefs : list string)
    (links : gset string) (link : string) :
  link ∈ fold_left (add_link base_url) hrefs links
  ↔ link ∈ links
    ∨ ∃ a : string,
        a ∈ hrefs
        ∧ netloc (urlparse (urljoin base_url a)) = netloc (urlparse base_url)
        ∧ link = split_hash_head (urljoin base_url a).
Proof.
  revert links. induction hrefs as [|a hrefs IH]; intros links; simpl.
  - split; [by left | intros [?|(a & Ha & _)]; [done | by apply elem_of_nil in Ha]].
  - rewrite IH, elem_of_add_link. split.
    + intros [[?|?]|(b & Hb & ?)].
      * by left.
      * right. exists a. split; [left | done].
      * right. exists b. split; [by right | done].
    + intros [?|(b & Hb & ?)]; [by left; left |].
      apply elem_of_cons in Hb as [->|Hb]; [by left; right | right; by exists b].
Qed.

Lemma elem_of_extract_links (base_url html link : string) :
  link ∈ extract_links base_url html
  ↔ ∃ a : string,
      a ∈ soup_anchor_hrefs html
      ∧ netloc (urlparse (urljoin base_url a)) = netloc (urlparse base_url)
      ∧ link = split_hash_head (urljoin base_url a).
Proof.
  unfold extract_links. rewrite elem_of_extract_loop.
  split; [intros [Hl|?]; [by apply elem_of_empty in Hl | done] | by right].
Qed.

(** The part of a text before its first number sign is determined by the
    text: it is the one prefix without a number sign that the text continues
    with nothing or with a number sign. *)
Lemma split_hash_head_spec (s link : string) :
  link = split_hash_head s
  ↔ ∃ rest : string,
      s = link +:+ rest
      ∧ contains "#" link = false
      ∧ (rest = EmptyString ∨ ∃ r : string, rest = String "#" r).
Proof.
  split.
  - intros ->.
    assert (∃ rest : string,
              s = split_hash_head s +:+ rest
              ∧ (rest = EmptyString ∨ ∃ r : string, rest = String "#" r))
      as (rest & Hs & Hrest).
    { induction s as [|c s (rest & Hs & Hrest)].
      - exists EmptyString. split; [done | by left].
      - cbn [split_hash_head]. destruct (Ascii.eqb_spec c "#"%char) as [->|Hc].
        + exists (String "#" s). split; [done | right; by exists s].
        + exists rest. split; [by rewrite append_cons, <- Hs | done]. }
    exists rest. split_and!; [done | apply split_hash_head_no_hash | done].
  - revert s. induction link as [|c link IH]; intros s (rest & -> & Hno & Hrest).
    + destruct Hrest as [-> | (r & ->)]; reflexivity.
    + rewrite append_cons. cbn [split_hash_head].
      cbn [contains startswith] in Hno. rewrite Ascii.eqb_sym in Hno.
      destruct (Ascii.eqb c "#"%char); [done |]. simpl in Hno.
      f_equal. apply IH. by exists rest.
Qed.

(** C5 (amended): a link is in the set [extract_links] returns if and only
    if some anchor's href, resolved against the base URL by [urljoin], has
    the network location of the base URL exactly, and the link is that
    resolved URL cut before its first number sign: the resolved URL is the
    link followed by nothing or by a number sign and more, and the link has
    no number sign.  A kept link has the host of the base URL, because it
    has its network location.  The result, a set, lists every link once.
    [extract_links] returns this set when no call of [urljoin] or
    [urlparse] raises on an anchor, and raises when one does. *)
Theorem extract_links_same_netloc `{LibRaises} (base_url html : string) :
  (∀ link : string,
     link ∈ extract_links base_url html
     ↔ ∃ a rest : string,
         a ∈ soup_anchor_hrefs html
         ∧ netloc (urlparse (urljoin base_url a)) = netloc (urlparse base_url)
         ∧ urljoin base_url a = link +:+ rest
         ∧ contains "#" link = false
         ∧ (rest = EmptyString ∨ ∃ r : string, rest = String "#" r))
  ∧ (∀ a : string,
       a ∈ soup_anchor_hrefs html →
       netloc (urlparse (urljoin base_url a)) = netloc (urlparse base_url) →
       split_hash_head (urljoin base_url a) ∈ extract_links base_url html
       ∧ hostname_of (netloc (urlparse (urljoin base_url a)))
         = hostname_of (netloc (urlparse base_url)))
  ∧ NoDup (elements (extract_links base_url html))
  ∧ ((∀ a : string, a ∈ soup_anchor_hrefs html → anchor_raises base_url a = false) →
     extract_links_exc base_url html = Some (extract_links base_url html))
  ∧ ((∃ a : string, a ∈ soup_anchor_hrefs html ∧ anchor_raises base_url a = true) →
     extract_links_exc base_url html = None).
Proof.
  split_and!.
  - intros link. rewrite elem_of_extract_links. split.
    + intros (a & Ha & Hnl & Hl).
      apply split_hash_head_spec in Hl as (rest & ? & ? & ?). by exists a, rest.
    + intros (a & rest & Ha & Hnl & Hj & Hno & Hrest).
      exists a. split_and!; [done | done |].
      apply split_hash_head_spec. by exists rest.
  - intros a Ha Hnl. split; [|by rewrite Hnl].
    apply elem_of_extract_links. by exists a.
  - apply NoDup_elements.
  - intros Hno. unfold extract_links_exc.
    destruct (existsb (anchor_raises base_url) (soup_anchor_hrefs html)) eqn:E;
      [|done].
    apply existsb_exists in E as (a & Ha & Hr).
    apply list_elem_of_In in Ha. by rewrite (Hno a Ha) in Hr.
  - intros (a & Ha & Hr). unfold extract_links_exc.
    assert (existsb (anchor_raises base_url) (soup_anchor_hrefs html) = true) as ->;
      [|done].
    apply existsb_exists. exists a. split; [by apply list_elem_of_In | done].
Qed.

End ExtractorFacts.

(** The example of the specification: of the anchors to [http://a.com/y]
    and [http://b.com/z] on [http://a.com/x], only the first is kept. *)
Example extract_links_same_origin :
  elements (extract_links "http://a.com/x"
              "<a href='http://a.com/y'>y</a><a href='http://b.com/z'>z</a>")
  = ["http://a.com/y"].
Proof. vm_compute. reflexivity. Qed.

(** A subdomain, or the same host with a port, is another network location;
    two anchors that differ in their fragment only give one link. *)
Example extract_links_exact_netloc :
  elements (extract_links "http://a.com/x"
              "<a href='http://www.a.com/y'>1</a><a href='http://a.com:8080/y'>2</a><a href='/y#top'>3</a><a href='/y#end'>4</a>")
  = ["http://a.com/y"].
Proof. vm_compute. reflexivity. Qed.

(** ** The domain crawl loop *)

Section CrawlFacts.
Context `{PyLib} {W : Type} `{Network W}.
Variable self : BanglaWebCrawler.

(** The three ways through the loop body. *)
Lemma loop_body_cases (keywords : list string) (url : string) (rest : list string)
    (st : CrawlState W) :
  (url ∈ visited st
   ∧ loop_body keywords url rest st
     = (Skipped url,
        {| visited := visited st; to_visit := rest; pages_crawled := pages_crawled st;
           found_matches := found_matches st; net := net st |}))
  ∨ ((url ∉ visited st)
     ∧ ((fetch_page url (net st)).1 = None
        ∨ (fetch_page url (net st)).1 = Some EmptyString)
     ∧ loop_body keywords url rest st
       = (FetchedAbsent url,
          {| visited := visited st ∪ {[ url ]}; to_visit := rest;
             pages_crawled := pages_crawled st;
             found_matches := found_matches st;
             net := (fetch_page url (net st)).2 |}))
  ∨ ((url ∉ visited st)
     ∧ ∃ html : string,
         (fetch_page url (net st)).1 = Some html
         ∧ html ≠ EmptyString
         ∧ loop_body keywords url rest st
           = (Processed url html,
              {| visited := visited st ∪ {[ url ]};
                 to_visit :=
                   rest ++ List.filter
                             (fun link => bool_decide (link ∉ visited st ∪ {[ url ]}))
                             (elements (extract_links url html));
                 pages_crawled := pages_crawled st + 1;
                 found_matches :=
                   found_matches st ++ map (mkMatch url) (search_keywords html keywords);
                 net := (fetch_page url (net st)).2 |})).
Proof.
  unfold loop_body. destruct (decide (url ∈ visited st)) as [Hin|Hin]; [by left |].
  right. destruct (fetch_page url (net st)) as [[[|c html]|] net']; simpl.
  - left. split_and!; [done | by right | done].
  - right. split; [done |]. by exists (String c html).
  - left. split_and!; [done | by left | done].
Qed.




(** Induction along the iterations of a bounded run. *)
Lemma crawl_loop_ind (keywords : list string)
    (P : CrawlState W → list Event → CrawlState W → Prop) :
  (∀ st : CrawlState W, P st [] st) →
  (∀ (st : CrawlState W) (url : string) (rest : list string) (e : Event)
     (st' : CrawlState W) (tr : list Event) (final : CrawlState W),
     to_visit st = url :: rest →
     pages_crawled st < max_pages_per_domain self →
     loop_body keywords url rest st = (e, st') →
     P st' tr final →
     P st (e :: tr) final) →
  ∀ (fuel : nat) (st : CrawlState W),
    let '(tr, final, _) := crawl_loop self fuel keywords st in P st tr final.
Proof.
  intros Hnil Hstep fuel. induction fuel as [|fuel IH]; intros st; simpl.
  - destruct (to_visit st); [apply Hnil |].
    destruct (pages_crawled st <? max_pages_per_domain self); apply Hnil.
  - destruct (to_visit st) as [|url rest] eqn:Eq; [apply Hnil |].
    destruct (Z.ltb_spec (pages_crawled st) (max_pages_per_domain self)); [|apply Hnil].
    destruct (loop_body keywords url rest st) as [e st'] eqn:Eb.
    specialize (IH st').
    destruct (crawl_loop self fuel keywords st') as [[tr final] status].
    by eapply Hstep.
Qed.




Lemma crawl_loop_netloc (keywords : list string) (domain : string)
    (fuel : nat) (st : CrawlState W) :
  (∀ u : string, netloc (urlparse (split_hash_head u)) = netloc (urlparse u)) →
  (∀ u : string, u ∈ to_visit st → netloc (urlparse u) = domain) →
  let '(tr, final, _) := crawl_loop self fuel keywords st in
  (∀ u : string, u ∈ to_visit final → netloc (urlparse u) = domain)
  ∧ (∀ u : string, u ∈ fetch_calls tr → netloc (urlparse u) = domain).
Proof.
  intros Hfrag Hq.
  cut (let '(tr, final, _) := crawl_loop self fuel keywords st in
       (∀ u : string, u ∈ to_visit st → netloc (urlparse u) = domain) →
       (∀ u : string, u ∈ to_visit final → netloc (urlparse u) = domain)
       ∧ (∀ u : string, u ∈ fetch_calls tr → netloc (urlparse u) = domain)).
  { destruct (crawl_loop self fuel keywords st) as [[tr final] status].
    intros Hc. by apply Hc. }
  clear Hq. revert fuel st.
  apply (crawl_loop_ind keywords
           (fun st tr final =>
              (∀ u : string, u ∈ to_visit st → netloc (urlparse u) = domain) →
              (∀ u : string, u ∈ to_visit final → netloc (urlparse u) = domain)
              ∧ (∀ u : string, u ∈ fetch_calls tr → netloc (urlparse u) = domain))).
  - intros st' Hq. split; [done | intros u Hu; by apply elem_of_nil in Hu].
  - intros st0 url rest e st' tr final Eq _ Hbody IH Hq.
    assert (netloc (urlparse url) = domain) as Hurl.
    { apply Hq. rewrite Eq. left. }
    assert (∀ u : string, u ∈ rest → netloc (urlparse u) = domain) as Hrest.
    { intros u Hu. apply Hq. rewrite Eq. by right. }
    destruct (loop_body_cases keywords url rest st0)
      as [(_ & Hc) | [(_ & _ & Hc) | (_ & html & _ & _ & Hc)]];
      rewrite Hc in Hbody; injection Hbody as <- <-; simpl in *.
    + by apply IH.
    + destruct (IH Hrest) as [Hfin Hcalls]. split; [done |].
      intros u [->|Hu]%elem_of_cons; [done | by apply Hcalls].
    + destruct IH as [Hfin Hcalls].
      { intros u [Hu|Hu]%elem_of_app; [by apply Hrest |].
        apply list_elem_of_In, filter_In in Hu as [Hu _].
        apply list_elem_of_In, elem_of_elements in Hu.
        apply elem_of_extract_links in Hu as (a & _ & Hnl & ->).
        by rewrite Hfrag, Hnl. }
      split; [done |].
      intros u [->|Hu]%elem_of_cons; [done | by apply Hcalls].
Qed.




(** C10: when the network location of a URL does not depend on its
    fragment and that of [https://<domain>] is the domain, every URL on the
    frontier at any point of the crawl, and every URL [fetch_page] is called
    on, has the domain as its network location. *)
Theorem crawl_domain_stays_on_domain (fuel : nat) (domain : string)
    (keywords : list string) (found : list MatchRecord) (s : NetState W) :
  (∀ u : string, netloc (urlparse (split_hash_head u)) = netloc (urlparse u)) →
  netloc (urlparse (seed_url domain)) = domain →
  let '(tr, final, _) := crawl_domain self fuel domain keywords found s in
  (∀ u : string, u ∈ to_visit final → netloc (urlparse u) = domain)
  ∧ (∀ u : string, u ∈ fetch_calls tr → netloc (urlparse u) = domain).
Proof.
  intros Hfrag Hseed. unfold crawl_domain.
  apply crawl_loop_netloc; [done |].
  simpl. by intros u ->%list_elem_of_singleton.
Qed.

End CrawlFacts.

(** The crawl only appends to [found_matches]. *)
Lemma crawl_loop_found_prefix `{PyLib} {W : Type} `{Network W}
    (self : BanglaWebCrawler) (keywords : list string) (fuel : nat)
    (st : CrawlState W) :
  let '(_, final, _) := crawl_loop self fuel keywords st in
  found_matches st `prefix_of` found_matches final.
Proof.
  apply (crawl_loop_ind self keywords
           (fun st _ final => found_matches st `prefix_of` found_matches final)).
  - done.
  - intros st0 url rest e st' tr final _ _ Hbody Hpre.
    destruct (loop_body_cases keywords url rest st0)
      as [(_ & Hc) | [(_ & _ & Hc) | (_ & html & _ & _ & Hc)]];
      rewrite Hc in Hbody; injection Hbody as <- <-; simpl in *; try done.
    etrans; [|exact Hpre]. by apply prefix_app_r.
Qed.

Lemma crawl_domain_task_appends `{PyLib} {W : Type} `{Network W}
    (self : BanglaWebCrawler) (fuel : nat) (domain : string) (words : list string)
    (sh : Shared W) :
  shared_found sh `prefix_of` shared_found (crawl_domain_task self fuel domain words sh).2.
Proof.
  unfold crawl_domain_task, crawl_domain.
  pose proof (crawl_loop_found_prefix self words fuel
                (initial_state domain (shared_found sh) (shared_net sh))) as Hp.
  by destruct (crawl_loop self fuel words
                 (initial_state domain (shared_found sh) (shared_net sh)))
       as [[tr final] status].
Qed.

(** ** The orchestrator *)

Section OrchestratorFacts.
Context {W : Type}.

Lemma wait_results_raised (futures : list TaskOutcome) :
  wait_results futures = TaskRaised ↔ TaskRaised ∈ futures.
Proof.
  induction futures as [|[|] fs IH]; simpl.
  - split; [done | intros Hin; by apply elem_of_nil in Hin].
  - rewrite IH, elem_of_cons. split; [by right | by intros [?|?]].
  - split; [left | done].
Qed.

Lemma executor_run_app (ts1 ts2 : list (Task W)) (sh : Shared W) :
  executor_run (ts1 ++ ts2) sh
  = ((executor_run ts1 sh).1 ++ (executor_run ts2 (executor_run ts1 sh).2).1,
     (executor_run ts2 (executor_run ts1 sh).2).2).
Proof.
  revert sh. induction ts1 as [|t ts1 IH]; intros sh; simpl.
  - by destruct (executor_run ts2 sh).
  - destruct (t sh) as [o sh1]. rewrite IH.
    destruct (executor_run ts1 sh1) as [os1 sh2]. simpl.
    by destruct (executor_run ts2 sh2).
Qed.

Lemma executor_run_length (tasks : list (Task W)) (sh : Shared W) :
  length (executor_run tasks sh).1 = length tasks.
Proof.
  revert sh. induction tasks as [|t ts IH]; intros sh; simpl; [done |].
  destruct (t sh) as [o sh1]. specialize (IH sh1).
  destruct (executor_run ts sh1). simpl in *. by rewrite IH.
Qed.

Lemma executor_run_found_prefix (tasks : list (Task W)) (sh : Shared W) :
  (∀ (t : Task W) (sh0 : Shared W),
     t ∈ tasks → shared_found sh0 `prefix_of` shared_found (t sh0).2) →
  shared_found sh `prefix_of` shared_found (executor_run tasks sh).2.
Proof.
  revert sh. induction tasks as [|t ts IH]; intros sh Happ; simpl; [done |].
  pose proof (Happ t sh ltac:(left)) as Ht.
  destruct (t sh) as [o sh1]. simpl in Ht.
  specialize (IH sh1 ltac:(intros t' sh0 Hin; apply Happ; by right)).
  destruct (executor_run ts sh1) as [os sh2]. simpl in *. by etrans.
Qed.

(** C3 (amended): [run] runs every domain task to its end, whatever the
    outcome of the others.  When some task raised, [run] raises too and
    writes no file; when none raised, it writes the file with every record
    of the shared list.  When the tasks only append to the shared list, the
    records gathered by the time any of them ended are still in that list
    when [run] ends. *)
Theorem run_saves_only_without_failure (crawl : string → list string → Task W)
    (domains words : list string) (sh : Shared W) :
  let tasks := map (fun domain => crawl domain words) domains in
  let e := run crawl domains words sh in
  run_shared e = (executor_run tasks sh).2
  ∧ length (executor_run tasks sh).1 = length domains
  ∧ (TaskRaised ∈ (executor_run tasks sh).1 →
     run_outcome e = TaskRaised ∧ output_file e = None)
  ∧ (TaskRaised ∉ (executor_run tasks sh).1 →
     run_outcome e = TaskReturned
     ∧ output_file e = Some (save_results (shared_found (run_shared e))))
  ∧ ((∀ (domain : string) (sh0 : Shared W),
        shared_found sh0 `prefix_of` shared_found (crawl domain words sh0).2) →
     ∀ ds1 ds2 : list string,
       domains = ds1 ++ ds2 →
       shared_found
         (executor_run (map (fun domain => crawl domain words) ds1) sh).2
       `prefix_of` shared_found (run_shared e)).
Proof.
  intros tasks e.
  assert (run_shared e = (executor_run tasks sh).2) as Hshared.
  { subst e. unfold run. fold tasks.
    destruct (executor_run tasks sh) as [futures sh'].
    by destruct (wait_results futures). }
  split_and!.
  - exact Hshared.
  - subst tasks. by rewrite executor_run_length, length_map.
  - intros Hin. apply wait_results_raised in Hin.
    subst e. unfold run. fold tasks.
    destruct (executor_run tasks sh) as [futures sh']. simpl in Hin.
    by rewrite Hin.
  - intros Hnone.
    assert (wait_results (executor_run tasks sh).1 = TaskReturned) as Hret.
    { destruct (wait_results (executor_run tasks sh).1) eqn:E; [done |].
      apply wait_results_raised in E. by destruct Hnone. }
    subst e. unfold run. fold tasks.
    destruct (executor_run tasks sh) as [futures sh']. simpl in Hret.
    by rewrite Hret.
  - intros Happ ds1 ds2 Hds. rewrite Hshared. subst tasks. rewrite Hds, map_app.
    rewrite executor_run_app. simpl.
    apply executor_run_found_prefix.
    intros t sh0 (d & -> & _)%list_elem_of_fmap. apply Happ.
Qed.

End OrchestratorFacts.

(** ** The crawler on the example sites *)

Lemma span_until_hash (u : string) :
  (span_until (is_char "#") u).1 = split_hash_head u.
Proof.
  induction u as [|c u IH]; [done |].
  cbn [span_until split_hash_head].
  change (is_char "#" c) with (Ascii.eqb "#" c). rewrite Ascii.eqb_sym.
  destruct (Ascii.eqb c "#"%char); [done |].
  destruct (span_until (is_char "#") u) as [l r]. simpl in *. by rewrite IH.
Qed.

(** The reference [urlparse] finds the network location before the
    fragment. *)
Lemma ref_netloc_fragment (u : string) :
  netloc (ref_urlparse (split_hash_head u)) = netloc (ref_urlparse u).
Proof.
  unfold ref_urlparse.
  pose proof (span_until_hash u) as Hu.
  pose proof (span_until_hash (split_hash_head u)) as Hs.
  rewrite (split_hash_head_id (split_hash_head u)) in Hs
    by apply split_hash_head_no_hash.
  destruct (span_until (is_char "#") u) as [bf fr].
  destruct (span_until (is_char "#") (split_hash_head u)) as [bf' fr'].
  simpl in *. subst bf bf'.
  destruct (span_until (is_char "?") (split_hash_head u)) as [bq qr].
  destruct (find_sub "://" bq) as [[sch rest]|]; [|done].
  by destruct (span_until (is_char "/") rest).
Qed.

(** The end-to-end scenario of the specification: one row, for the root
    page; [/page2] is visited and gives no row; two pages are fetched. *)
Example crawl_d1_scenario :
  let '(tr, final, status) :=
    crawl_domain default_crawler 10 "d1.test" ["hello"] [] (start d1_site) in
  fetch_calls tr = ["https://d1.test"; "https://d1.test/page2"]
  ∧ found_matches final = [{| URL := "https://d1.test"; Matched_Word := "hello" |}]
  ∧ pages_crawled final = 2
  ∧ to_visit final = []
  ∧ status = LoopExit.
Proof. vm_compute. by split_and!. Qed.

(** [https://w.test/b] is enqueued by the root page and again by [/a]; it is
    fetched at its first dequeue and skipped at its second. *)
Example crawl_diamond_skips_second_dequeue :
  let '(tr, final, status) :=
    crawl_domain default_crawler 10 "w.test" [] [] (start diamond_site) in
  tr = [Processed "https://w.test" "<a href='/a'>a</a><a href='/b'>b</a>";
        Processed "https://w.test/a" "<p>a</p><a href='/b'>b</a><a href='/b#top'>b</a>";
        Processed "https://w.test/b" "<p>b</p>";
        Skipped "https://w.test/b"]
  ∧ requests (net final) = ["https://w.test"; "https://w.test/a"; "https://w.test/b"]
  ∧ status = LoopExit.
Proof. vm_compute. by split_and!. Qed.

(** With a budget of two pages, [fetch_page] is called four times: the two
    calls that give no page are not charged. *)
Example crawl_sparse_fetch_calls :
  let '(tr, final, status) :=
    crawl_domain two_page_crawler 10 "s.test" [] [] (start sparse_site) in
  fetch_calls tr
  = ["https://s.test"; "https://s.test/c"; "https://s.test/a"; "https://s.test/b"]
  ∧ processed_pages tr = ["https://s.test"; "https://s.test/b"]
  ∧ pages_crawled final = 2
  ∧ status = LoopExit.
Proof. vm_compute. by split_and!. Qed.



(** Witness of C10: the frontier after the first iteration on [d1.test]. *)
Lemma crawl_domain_stays_on_domain_witness :
  let '(tr, final, _) :=
    crawl_domain default_crawler 1 "d1.test" ["hello"] [] (start d1_site) in
  (∀ u : string, u ∈ to_visit final → netloc (urlparse u) = "d1.test")
  ∧ (∀ u : string, u ∈ fetch_calls tr → netloc (urlparse u) = "d1.test").
Proof.
  apply (crawl_domain_stays_on_domain default_crawler 1 "d1.test" ["hello"] []
           (start d1_site)).
  - apply ref_netloc_fragment.
  - reflexivity.
Defined.

(** * Further properties of the crawler *)

(** ** The fetcher *)

Lemma attempt_html_iff (o : GetOutcome) (body : string) :
  attempt o = AttemptHtml body
  ↔ ∃ r : Response,
      o = GetReturns r ∧ text r = body ∧ ¬ (400 ≤ status_code r < 600)
      ∧ Substring "text/html" (header_content_type r).
Proof.
  destruct o as [|r]; simpl.
  - split; [done | intros (r & Hr & _); discriminate Hr].
  - unfold raise_for_status. split.
    + destruct (Z.leb_spec 400 (status_code r)), (Z.ltb_spec (status_code r) 600);
        simpl; try done;
        (destruct (contains _ _) eqn:E; [|done]; intros [= <-]; exists r;
         split_and!; [done | done | lia | by apply contains_spec]).
    + intros (r' & [= <-] & <- & Hs & Hc). apply contains_spec in Hc.
      destruct (Z.leb_spec 400 (status_code r)), (Z.ltb_spec (status_code r) 600);
        simpl; try lia; by rewrite Hc.
Qed.

Section FetcherMore.
Context `{PyLib} {W : Type} `{Network W}.

(** X2: a body returned by [fetch_page] is the text of a response, to the
    URL or, after a failed first attempt, to its fallback URL, whose status
    is no error status and whose content type contains [text/html]. *)
Theorem fetch_page_body_is_html (url : string) (s : NetState W) (body : string) :
  (fetch_page url s).1 = Some body →
  ∃ (u : string) (w : W) (r : Response),
    ((u = url ∧ w = world s)
     ∨ (u = fallback_url url ∧ w = (session_get url (world s)).2
        ∧ attempt (session_get url (world s)).1 = AttemptRaised))
    ∧ (session_get u w).1 = GetReturns r
    ∧ text r = body
    ∧ ¬ (400 ≤ status_code r < 600)
    ∧ Substring "text/html" (header_content_type r).
Proof.
  unfold fetch_page, http_get.
  destruct (session_get url (world s)) as [o w1] eqn:E1. simpl.
  destruct (attempt o) as [|body1|] eqn:Ea; simpl.
  - destruct (session_get (fallback_url url) w1) as [o2 w2] eqn:E2. simpl.
    destruct (attempt o2) as [|body2|] eqn:Ea2; simpl; try done.
    intros [= <-]. apply attempt_html_iff in Ea2 as (r & -> & ? & ? & ?).
    exists (fallback_url url), w1, r. rewrite E2. split_and!; try done. by right.
  - intros [= <-]. apply attempt_html_iff in Ea as (r & -> & ? & ? & ?).
    exists url, (world s), r. rewrite E1. split_and!; try done. by left.
  - done.
Qed.

(** X3: when the first response is no error status and of type
    [text/html], [fetch_page] returns its text after that single GET. *)
Theorem fetch_page_first_attempt_html (url : string) (s : NetState W) (r : Response) :
  (session_get url (world s)).1 = GetReturns r →
  ¬ (400 ≤ status_code r < 600) →
  Substring "text/html" (header_content_type r) →
  fetch_page url s
  = (Some (text r),
     {| world := (session_get url (world s)).2; requests := requests s ++ [url] |}).
Proof.
  intros Hget Hstatus Hct.
  assert (attempt (session_get url (world s)).1 = AttemptHtml (text r)) as Ha.
  { apply attempt_html_iff. by exists r. }
  unfold fetch_page, http_get.
  destruct (session_get url (world s)) as [o w1]. simpl in *. by rewrite Ha.
Qed.

End FetcherMore.

(** Witness of X2: the site that answers over plain HTTP only. *)
Lemma fetch_page_body_is_html_witness :
  ∃ (u : string) (w : Site) (r : Response),
    ((u = "https://site.test" ∧ w = world (start secure_down))
     ∨ (u = fallback_url "https://site.test"
        ∧ w = (session_get "https://site.test" (world (start secure_down))).2
        ∧ attempt (session_get "https://site.test" (world (start secure_down))).1
          = AttemptRaised))
    ∧ (session_get u w).1 = GetReturns r
    ∧ text r = "<p>plain</p>"
    ∧ ¬ (400 ≤ status_code r < 600)
    ∧ Substring "text/html" (header_content_type r).
Proof.
  apply (fetch_page_body_is_html "https://site.test" (start secure_down) "<p>plain</p>").
  reflexivity.
Defined.

(** Witness of X3. *)
Lemma fetch_page_first_attempt_html_witness :
  fetch_page "http://site.test" (start secure_down)
  = (Some "<p>plain</p>",
     {| world := secure_down; requests := ["http://site.test"] |}).
Proof.
  assert (¬ (400 ≤ status_code (html_page "<p>plain</p>") < 600)) as Hstatus
    by (simpl; lia).
  assert (Substring "text/html" (header_content_type (html_page "<p>plain</p>")))
    as Hct by (apply contains_spec; reflexivity).
  exact (fetch_page_first_attempt_html "http://site.test" (start secure_down)
           (html_page "<p>plain</p>") eq_refl Hstatus Hct).
Defined.

(** ** Link extraction and keyword search *)

Lemma string_app_assoc (a b c : string) : (a +:+ b) +:+ c = a +:+ (b +:+ c).
Proof.
  induction a as [|x a IH]; [done |].
  rewrite !append_cons. by rewrite IH.
Qed.

Lemma string_app_length (a b : string) :
  String.length (a +:+ b) = (String.length a + String.length b)%nat.
Proof.
  induction a as [|x a IH]; [done |].
  rewrite append_cons. simpl. by rewrite IH.
Qed.

Lemma Substring_trans (a b c : string) :
  Substring a b → Substring b c → Substring a c.
Proof.
  intros (l1 & r1 & ->) (l2 & r2 & ->).
  exists (l2 +:+ l1), (r1 +:+ r2). by rewrite !string_app_assoc.
Qed.

Section ExtractorMore.
Context `{PyLib}.

(** X4: when the network location of a URL does not depend on its
    fragment, every link [extract_links] returns has the network location
    of the base URL. *)
Theorem extract_links_keeps_netloc (base_url html : string) :
  (∀ u : string, netloc (urlparse (split_hash_head u)) = netloc (urlparse u)) →
  ∀ link : string,
    link ∈ extract_links base_url html →
    netloc (urlparse link) = netloc (urlparse base_url).
Proof.
  intros Hfrag link (a & _ & Hnl & ->)%elem_of_extract_links.
  by rewrite Hfrag.
Qed.

(** X5: the set [extract_links] returns depends on the hrefs of the page
    only as a set: their order and their repetitions do not matter, and a
    page without anchors gives the empty set. *)
Theorem extract_links_anchor_set (base_url html1 html2 : string) :
  (∀ a : string, a ∈ soup_anchor_hrefs html1 ↔ a ∈ soup_anchor_hrefs html2) →
  extract_links base_url html1 = extract_links base_url html2
  ∧ (soup_anchor_hrefs html1 = [] → extract_links base_url html1 = ∅).
Proof.
  intros Hsame. split.
  - apply set_eq. intros link. rewrite !elem_of_extract_links.
    split; intros (a & Ha & Hrest); exists a; (split; [by apply Hsame | done]).
  - intros Hnil. apply set_eq. intros link. rewrite elem_of_extract_links, Hnil.
    split; [intros (a & Ha & _); by apply elem_of_nil in Ha | intros Hl].
    by apply elem_of_empty in Hl.
Qed.

(** X6: searching a concatenation of two word lists gives the words found
    from the first list followed by those found from the second. *)
Theorem search_keywords_app (html : string) (keywords1 keywords2 : list string) :
  search_keywords html (keywords1 ++ keywords2)
  = search_keywords html keywords1 ++ search_keywords html keywords2.
Proof.
  unfold search_keywords. rewrite !search_loop_filter. simpl.
  apply filter_app.
Qed.

(** X7: a listed word that occurs inside a reported word is reported
    too. *)
Theorem search_keywords_substring_closed (html : string) (keywords : list string)
    (w1 w2 : string) :
  Substring w1 w2 →
  w1 ∈ keywords →
  w2 ∈ search_keywords html keywords →
  w1 ∈ search_keywords html keywords.
Proof.
  intros Hsub Hin Hfound.
  unfold search_keywords in *. rewrite search_loop_filter in *. simpl in *.
  apply list_elem_of_filter in Hfound as [Hocc _].
  apply list_elem_of_filter. split; [|done].
  by apply (Substring_trans w1 w2).
Qed.

(** X8: no reported word is longer than the text of the page, and the
    empty word, when listed, is reported for every page. *)
Theorem search_keywords_length (html : string) (keywords : list string) :
  (∀ w : string,
     w ∈ search_keywords html keywords →
     (String.length w ≤ String.length (soup_get_text html))%nat)
  ∧ (EmptyString ∈ keywords → EmptyString ∈ search_keywords html keywords).
Proof.
  unfold search_keywords. rewrite search_loop_filter. simpl. split.
  - intros w [(l & r & Ht) _]%list_elem_of_filter.
    rewrite Ht, !string_app_length. lia.
  - intros Hin. apply list_elem_of_filter. split; [|done].
    by exists EmptyString, (soup_get_text html).
Qed.

End ExtractorMore.

(** Witness of X4: the link kept from the anchor [/y#top]. *)
Lemma extract_links_keeps_netloc_witness :
  netloc (urlparse "http://a.com/y") = netloc (urlparse "http://a.com/x").
Proof.
  apply (extract_links_keeps_netloc "http://a.com/x"
           "<a href='/y#top'>y</a><a href='http://b.com/z'>z</a>").
  - apply ref_netloc_fragment.
  - apply elem_of_extract_links. exists "/y#top".
    split_and!; [vm_compute; left | reflexivity | reflexivity].
Defined.

(** Witness of X5: the same two anchors, in another order and with one
    repeated. *)
Lemma extract_links_anchor_set_witness :
  extract_links "http://a.com/x" "<a href='/y'>y</a><a href='/z'>z</a>"
  = extract_links "http://a.com/x" "<a href='/z'>z</a><a href='/y'>y</a><a href='/z'>z</a>".
Proof.
  apply (extract_links_anchor_set "http://a.com/x"
           "<a href='/y'>y</a><a href='/z'>z</a>"
           "<a href='/z'>z</a><a href='/y'>y</a><a href='/z'>z</a>").
  intros a.
  change (a ∈ ["/y"; "/z"] ↔ a ∈ ["/z"; "/y"; "/z"]).
  rewrite !elem_of_cons. tauto.
Defined.

(** Witness of X7. *)
Lemma search_keywords_substring_closed_witness :
  "বাংলা" ∈ search_keywords "<p>বাংলাদেশ</p>" ["বাংলা"; "বাংলাদেশ"].
Proof.
  apply (search_keywords_substring_closed "<p>বাংলাদেশ</p>" ["বাংলা"; "বাংলাদেশ"]
           "বাংলা" "বাংলাদেশ").
  - apply contains_spec. reflexivity.
  - left.
  - right. left.
Defined.

(** Witness of X8. *)
Lemma search_keywords_length_witness :
  EmptyString ∈ search_keywords "<p>text</p>" ["word"; EmptyString].
Proof.
  apply (search_keywords_length "<p>text</p>" ["word"; EmptyString]).
  right. left.
Defined.

(** ** The domain crawl loop *)

Section CrawlMore.
Context `{PyLib} {W : Type} `{Network W}.
Variable self : BanglaWebCrawler.

(** X9: with a budget of zero or less the loop is not entered: no URL is
    dequeued, no request is made and nothing is recorded. *)
Theorem crawl_domain_no_budget (fuel : nat) (domain : string)
    (keywords : list string) (found : list MatchRecord) (s : NetState W) :
  max_pages_per_domain self ≤ 0 →
  crawl_domain self fuel domain keywords found s
  = ([], initial_state domain found s, LoopExit).
Proof.
  intros Hmax. unfold crawl_domain.
  destruct fuel; simpl;
    by destruct (Z.ltb_spec 0 (max_pages_per_domain self)); [lia |].
Qed.

(** X10: the records a crawl appends to [found_matches] are, page by page
    in the order the pages were processed, the words [search_keywords]
    finds in the page, each under the URL of the page. *)
Theorem crawl_domain_records (fuel : nat) (domain : string)
    (keywords : list string) (found : list MatchRecord) (s : NetState W) :
  let '(tr, final, _) := crawl_domain self fuel domain keywords found s in
  found_matches final
  = found
    ++ flat_map (fun e => match e with
                          | Processed url html =>
                              map (mkMatch url) (search_keywords html keywords)
                          | Skipped _ | FetchedAbsent _ => []
                          end) tr.
Proof.
  unfold crawl_domain.
  change found with (found_matches (initial_state domain found s)) at 2.
  generalize (initial_state domain found s). revert fuel.
  apply (crawl_loop_ind self keywords
           (fun st tr final =>
              found_matches final
              = found_matches st
                ++ flat_map (fun e => match e with
                                      | Processed url html =>
                                          map (mkMatch url)
                                            (search_keywords html keywords)
                                      | Skipped _ | FetchedAbsent _ => []
                                      end) tr)).
  - intros st. simpl. by rewrite app_nil_r.
  - intros st0 url rest e st' tr final _ _ Hbody IH.
    destruct (loop_body_cases keywords url rest st0)
      as [(_ & Hc) | [(_ & _ & Hc) | (_ & html & _ & _ & Hc)]];
      rewrite Hc in Hbody; injection Hbody as <- <-; simpl in *; try done.
    by rewrite IH, (assoc_L (++)).
Qed.

(** X11: at every point of a crawl, [visited] holds exactly the URLs
    [fetch_page] has been called on. *)
Theorem crawl_domain_visited (fuel : nat) (domain : string)
    (keywords : list string) (found : list MatchRecord) (s : NetState W) :
  let '(tr, final, _) := crawl_domain self fuel domain keywords found s in
  ∀ u : string, u ∈ visited final ↔ u ∈ fetch_calls tr.
Proof.
  unfold crawl_domain.
  cut (let '(tr, final, _) :=
         crawl_loop self fuel keywords (initial_state domain found s) in
       ∀ u : string,
         u ∈ visited final
         ↔ u ∈ visited (initial_state domain found s) ∨ u ∈ fetch_calls tr).
  { destruct (crawl_loop self fuel keywords (initial_state domain found s))
      as [[tr final] status].
    intros Hc u. rewrite Hc. simpl. rewrite elem_of_empty. tauto. }
  generalize (initial_state domain found s). revert fuel.
  apply (crawl_loop_ind self keywords
           (fun st tr final =>
              ∀ u : string, u ∈ visited final ↔ u ∈ visited st ∨ u ∈ fetch_calls tr)).
  - intros st u. simpl. rewrite elem_of_nil. tauto.
  - intros st0 url rest e st' tr final _ _ Hbody IH u.
    destruct (loop_body_cases keywords url rest st0)
      as [(_ & Hc) | [(_ & _ & Hc) | (_ & html & _ & _ & Hc)]];
      rewrite Hc in Hbody; injection Hbody as <- <-; simpl in *;
      rewrite IH; [done | |];
      rewrite elem_of_cons, elem_of_union, elem_of_singleton; tauto.
Qed.

(** X13: when the fetch of the seed URL gives no page, the crawl ends after
    that one iteration: nothing is recorded and no other URL is tried. *)
Theorem crawl_domain_dead_seed (fuel : nat) (domain : string)
    (keywords : list string) (found : list MatchRecord) (s : NetState W) :
  0 < max_pages_per_domain self →
  (fetch_page (seed_url domain) s).1 = None
  ∨ (fetch_page (seed_url domain) s).1 = Some EmptyString →
  crawl_domain self (S fuel) domain keywords found s
  = ([FetchedAbsent (seed_url domain)],
     {| visited := ∅ ∪ {[ seed_url domain ]}; to_visit := []; pages_crawled := 0;
        found_matches := found; net := (fetch_page (seed_url domain) s).2 |},
     LoopExit).
Proof.
  intros Hmax Habs. unfold crawl_domain. simpl.
  destruct (Z.ltb_spec 0 (max_pages_per_domain self)); [|lia].
  destruct (loop_body_cases keywords (seed_url domain) []
              (initial_state domain found s))
    as [(Hin & _) | [(_ & _ & Hc) | (_ & html & Hh & Hne & _)]].
  - simpl in Hin. by apply elem_of_empty in Hin.
  - rewrite Hc. simpl. by destruct fuel.
  - simpl in Hh. rewrite Hh in Habs. destruct Habs as [?|[= ->]]; done.
Qed.

(** X14: a crawl follows no URL of its own making: every URL on the
    frontier, and every URL [fetch_page] is called on, is the seed URL or a
    link [extract_links] returned for a page processed in this crawl. *)
Theorem crawl_domain_link_provenance (fuel : nat) (domain : string)
    (keywords : list string) (found : list MatchRecord) (s : NetState W) :
  let '(tr, final, _) := crawl_domain self fuel domain keywords found s in
  ∀ u : string,
    u ∈ to_visit final ∨ u ∈ fetch_calls tr →
    u = seed_url domain
    ∨ ∃ page html : string,
        Processed page html ∈ tr ∧ u ∈ extract_links page html.
Proof.
  unfold crawl_domain.
  cut (let '(tr, final, _) :=
         crawl_loop self fuel keywords (initial_state domain found s) in
       ∀ u : string,
         u ∈ to_visit final ∨ u ∈ fetch_calls tr →
         u ∈ to_visit (initial_state domain found s)
         ∨ ∃ page html : string,
             Processed page html ∈ tr ∧ u ∈ extract_links page html).
  { destruct (crawl_loop self fuel keywords (initial_state domain found s))
      as [[tr final] status].
    intros Hc u Hu. destruct (Hc u Hu) as [Hs|?]; [left | by right].
    simpl in Hs. by apply list_elem_of_singleton in Hs. }
  generalize (initial_state domain found s). revert fuel.
  apply (crawl_loop_ind self keywords
           (fun st tr final =>
              ∀ u : string,
                u ∈ to_visit final ∨ u ∈ fetch_calls tr →
                u ∈ to_visit st
                ∨ ∃ page html : string,
                    Processed page html ∈ tr ∧ u ∈ extract_links page html)).
  - intros st u [Hu|Hu]; [by left | by apply elem_of_nil in Hu].
  - intros st0 url rest e st' tr final Eq _ Hbody IH u Hu. rewrite Eq.
    assert (∀ v : string,
              v ∈ to_visit st' →
              v ∈ url :: rest
              ∨ ∃ html : string, e = Processed url html ∧ v ∈ extract_links url html)
      as Hstep.
    { destruct (loop_body_cases keywords url rest st0)
        as [(_ & Hc) | [(_ & _ & Hc) | (_ & html & _ & _ & Hc)]];
        rewrite Hc in Hbody; injection Hbody as <- <-; simpl.
      - intros v Hv. left. by right.
      - intros v Hv. left. by right.
      - intros v [Hv|Hv]%elem_of_app; [left; by right |].
        right. exists html. split; [done |].
        apply list_elem_of_In, filter_In in Hv as [Hv _].
        by apply list_elem_of_In, elem_of_elements in Hv. }
    assert (u ∈ to_visit final ∨ u ∈ fetch_calls tr ∨ u = url) as Hu'.
    { destruct Hu as [?|Hu]; [by left |]. right.
      destruct e; simpl in Hu.
      - by left.
      - apply elem_of_cons in Hu as [->|?]; [right | by left].
        destruct (loop_body_cases keywords url rest st0)
          as [(_ & Hc) | [(_ & _ & Hc) | (_ & html & _ & _ & Hc)]];
          rewrite Hc in Hbody; by injection Hbody.
      - apply elem_of_cons in Hu as [->|?]; [right | by left].
        destruct (loop_body_cases keywords url rest st0)
          as [(_ & Hc) | [(_ & _ & Hc) | (_ & html' & _ & _ & Hc)]];
          rewrite Hc in Hbody; by injection Hbody. }
    destruct Hu' as [Hu'|[Hu'| ->]]; [| | left; left].
    + destruct (IH u (or_introl Hu')) as [Hv | (page & html & Hp & Hl)].
      * destruct (Hstep u Hv) as [? | (html & -> & Hl)]; [by left |].
        right. exists url, html. split; [left | done].
      * right. exists page, html. split; [by right | done].
    + destruct (IH u (or_intror Hu')) as [Hv | (page & html & Hp & Hl)].
      * destruct (Hstep u Hv) as [? | (html & -> & Hl)]; [by left |].
        right. exists url, html. split; [left | done].
      * right. exists page, html. split; [by right | done].
Qed.

(** X15: a URL is skipped at dequeue time only if [fetch_page] has been
    called on it in this crawl. *)
Theorem crawl_domain_skips_fetched (fuel : nat) (domain : string)
    (keywords : list string) (found : list MatchRecord) (s : NetState W) :
  let '(tr, _, _) := crawl_domain self fuel domain keywords found s in
  ∀ u : string, Skipped u ∈ tr → u ∈ fetch_calls tr.
Proof.
  unfold crawl_domain.
  cut (let '(tr, final, _) :=
         crawl_loop self fuel keywords (initial_state domain found s) in
       ∀ u : string,
         Skipped u ∈ tr →
         u ∈ visited (initial_state domain found s) ∨ u ∈ fetch_calls tr).
  { destruct (crawl_loop self fuel keywords (initial_state domain found s))
      as [[tr final] status].
    intros Hc u Hu. destruct (Hc u Hu) as [Hv|?]; [|done].
    simpl in Hv. by apply elem_of_empty in Hv. }
  generalize (initial_state domain found s). revert fuel.
  apply (crawl_loop_ind self keywords
           (fun st tr _ =>
              ∀ u : string, Skipped u ∈ tr → u ∈ visited st ∨ u ∈ fetch_calls tr)).
  - intros st u Hu. by apply elem_of_nil in Hu.
  - intros st0 url rest e st' tr final _ _ Hbody IH u Hu.
    destruct (loop_body_cases keywords url rest st0)
      as [(Hin & Hc) | [(_ & _ & Hc) | (_ & html & _ & _ & Hc)]];
      rewrite Hc in Hbody; injection Hbody as <- <-; simpl in *.
    + apply elem_of_cons in Hu as [[= ->]|Hu]; [by left | by apply IH].
    + apply elem_of_cons in Hu as [?|Hu]; [done |].
      destruct (IH u Hu) as [Hv|?]; [|right; by right].
      apply elem_of_union in Hv as [?|Hv]; [by left |].
      apply elem_of_singleton in Hv as ->. right. left.
    + apply elem_of_cons in Hu as [?|Hu]; [done |].
      destruct (IH u Hu) as [Hv|?]; [|right; by right].
      apply elem_of_union in Hv as [?|Hv]; [by left |].
      apply elem_of_singleton in Hv as ->. right. left.
Qed.

End CrawlMore.

Section CrawlCompare.
Context `{PyLib} {W : Type} `{Network W}.

Lemma loop_body_found_shift (keywords : list string) (url : string)
    (rest : list string) (v : gset string) (q : list string) (p : Z)
    (f pre : list MatchRecord) (n : NetState W) :
  loop_body keywords url rest (mkCrawlState v q p (pre ++ f) n)
  = ((loop_body keywords url rest (mkCrawlState v q p f n)).1,
     mkCrawlState
       (visited (loop_body keywords url rest (mkCrawlState v q p f n)).2)
       (to_visit (loop_body keywords url rest (mkCrawlState v q p f n)).2)
       (pages_crawled (loop_body keywords url rest (mkCrawlState v q p f n)).2)
       (pre ++ found_matches (loop_body keywords url rest (mkCrawlState v q p f n)).2)
       (net (loop_body keywords url rest (mkCrawlState v q p f n)).2)).
Proof.
  unfold loop_body. simpl.
  destruct (decide (url ∈ v)); [done |].
  destruct (fetch_page url n) as [[[|c html]|] n']; simpl; try done.
  by rewrite (assoc_L (++)).
Qed.

Lemma crawl_loop_found_shift (self : BanglaWebCrawler) (keywords : list string)
    (fuel : nat) (v : gset string) (q : list string) (p : Z)
    (f pre : list MatchRecord) (n : NetState W) :
  crawl_loop self fuel keywords (mkCrawlState v q p (pre ++ f) n)
  = ((crawl_loop self fuel keywords (mkCrawlState v q p f n)).1.1,
     mkCrawlState
       (visited (crawl_loop self fuel keywords (mkCrawlState v q p f n)).1.2)
       (to_visit (crawl_loop self fuel keywords (mkCrawlState v q p f n)).1.2)
       (pages_crawled (crawl_loop self fuel keywords (mkCrawlState v q p f n)).1.2)
       (pre ++ found_matches (crawl_loop self fuel keywords (mkCrawlState v q p f n)).1.2)
       (net (crawl_loop self fuel keywords (mkCrawlState v q p f n)).1.2),
     (crawl_loop self fuel keywords (mkCrawlState v q p f n)).2).
Proof.
  revert v q p f n. induction fuel as [|fuel IH]; intros v q p f n; simpl.
  - destruct q as [|url rest]; [done |].
    by destruct (p <? max_pages_per_domain self).
  - destruct q as [|url rest]; [done |].
    destruct (p <? max_pages_per_domain self); [|done].
    rewrite loop_body_found_shift.
    destruct (loop_body keywords url rest (mkCrawlState v (url :: rest) p f n))
      as [e [v' q' p' f' n']]. simpl.
    rewrite IH.
    by destruct (crawl_loop self fuel keywords (mkCrawlState v' q' p' f' n'))
         as [[tr final] status].
Qed.

(** X16: what a crawl does is independent of the records already in the
    shared list: the iterations, the requests, the frontier and the counter
    are those of a crawl started on an empty list, and the list it leaves
    is the old list followed by the records of that crawl. *)
Theorem crawl_domain_found_independent (self : BanglaWebCrawler) (fuel : nat)
    (domain : string) (keywords : list string) (found : list MatchRecord)
    (s : NetState W) :
  let '(tr1, final1, status1) := crawl_domain self fuel domain keywords found s in
  let '(tr2, final2, status2) := crawl_domain self fuel domain keywords [] s in
  tr1 = tr2
  ∧ status1 = status2
  ∧ visited final1 = visited final2
  ∧ to_visit final1 = to_visit final2
  ∧ pages_crawled final1 = pages_crawled final2
  ∧ net final1 = net final2
  ∧ found_matches final1 = found ++ found_matches final2.
Proof.
  unfold crawl_domain, initial_state.
  pose proof (crawl_loop_found_shift self keywords fuel ∅ [seed_url domain] 0
                [] found s) as Hshift.
  rewrite app_nil_r in Hshift. rewrite Hshift.
  by destruct (crawl_loop self fuel keywords
                 {| visited := ∅; to_visit := [seed_url domain]; pages_crawled := 0;
                    found_matches := []; net := s |}) as [[tr final] status].
Qed.

End CrawlCompare.

(** Witness of X9: a budget of zero. *)
Lemma crawl_domain_no_budget_witness :
  crawl_domain {| max_pages_per_domain := 0; delay := 1; max_workers := 10 |}
    10 "d1.test" ["hello"] [] (start d1_site)
  = ([], initial_state "d1.test" [] (start d1_site), LoopExit).
Proof.
  assert (max_pages_per_domain
            {| max_pages_per_domain := 0; delay := 1; max_workers := 10 |} ≤ 0)
    as Hmax by (simpl; lia).
  pose proof (crawl_domain_no_budget
                {| max_pages_per_domain := 0; delay := 1; max_workers := 10 |}
                10 "d1.test" ["hello"] [] (start d1_site) Hmax) as Hrun.
  exact Hrun.
Defined.

(** Witness of X13: [down.test] is not served by the example site. *)
Lemma crawl_domain_dead_seed_witness :
  crawl_domain default_crawler 10 "down.test" ["hello"] [] (start d1_site)
  = ([FetchedAbsent (seed_url "down.test")],
     {| visited := ∅ ∪ {[ seed_url "down.test" ]}; to_visit := []; pages_crawled := 0;
        found_matches := [];
        net := (fetch_page (seed_url "down.test") (start d1_site)).2 |},
     LoopExit).
Proof.
  assert (0 < max_pages_per_domain default_crawler) as Hmax by (simpl; lia).
  assert ((fetch_page (seed_url "down.test") (start d1_site)).1 = None
          ∨ (fetch_page (seed_url "down.test") (start d1_site)).1 = Some EmptyString)
    as Habs by (left; reflexivity).
  pose proof (crawl_domain_dead_seed default_crawler 9 "down.test" ["hello"] []
                (start d1_site) Hmax Habs) as Hrun.
  exact Hrun.
Defined.

(** ** The input files *)

Lemma lstrip_suffix (s : pystr) : lstrip s `suffix_of` s.
Proof.
  induction s as [|c s IH]; simpl; [done |].
  destruct (isspace c); [by apply suffix_cons_r | done].
Qed.

Lemma lstrip_head (s : pystr) (c : N) :
  head (lstrip s) = Some c → isspace c = false.
Proof.
  induction s as [|d s IH]; simpl; [done |].
  destruct (isspace d) eqn:E; [done |]. simpl. by intros [= <-].
Qed.

Lemma lstrip_id (s : pystr) :
  (∀ c : N, head s = Some c → isspace c = false) → lstrip s = s.
Proof.
  destruct s as [|d s]; simpl; [done |].
  intros Hd. by rewrite (Hd d eq_refl).
Qed.

Lemma rstrip_prefix (s : pystr) : rstrip s `prefix_of` s.
Proof.
  unfold rstrip. apply prefix_suffix_reverse.
  rewrite reverse_involutive. apply lstrip_suffix.
Qed.

Lemma rstrip_last (s : pystr) (c : N) :
  last (rstrip s) = Some c → isspace c = false.
Proof. unfold rstrip. rewrite last_reverse. apply lstrip_head. Qed.

Lemma rstrip_id (s : pystr) :
  (∀ c : N, last s = Some c → isspace c = false) → rstrip s = s.
Proof.
  intros Hl. unfold rstrip. rewrite lstrip_id; [apply reverse_involutive |].
  intros c. rewrite head_reverse. apply Hl.
Qed.

Lemma strip_snoc_space (s : pystr) (c : N) :
  isspace c = true → strip (s ++ [c]) = strip s.
Proof.
  intros Hc. unfold strip, rstrip. rewrite reverse_snoc. simpl. by rewrite Hc.
Qed.

Lemma strip_id (s : pystr) :
  (∀ c : N, head s = Some c → isspace c = false) →
  (∀ c : N, last s = Some c → isspace c = false) →
  strip s = s.
Proof.
  intros Hh Hl. unfold strip. rewrite rstrip_id by done. by apply lstrip_id.
Qed.

Lemma strip_elem_of (s : pystr) (c : N) : c ∈ strip s → c ∈ s.
Proof.
  intros Hc. unfold strip in Hc.
  destruct (lstrip_suffix (rstrip s)) as [k1 E1].
  destruct (rstrip_prefix s) as [k2 E2].
  rewrite E2, E1. rewrite !elem_of_app. by left; right.
Qed.

Lemma strip_ends (s : pystr) :
  (∀ c : N, head (strip s) = Some c → isspace c = false)
  ∧ (∀ c : N, last (strip s) = Some c → isspace c = false).
Proof.
  split; [apply lstrip_head |].
  intros c Hc. unfold strip in Hc.
  destruct (lstrip_suffix (rstrip s)) as [k E].
  apply (rstrip_last s). rewrite E, last_app. by rewrite Hc.
Qed.

Lemma universal_newlines_elem_of_bounded (n : nat) (raw : pystr) (c : N) :
  (length raw ≤ n)%nat →
  c ∈ universal_newlines raw → c ≠ CR ∧ (c = LF ∨ c ∈ raw).
Proof.
  revert raw c. induction n as [|n IH]; intros raw c Hlen.
  { destruct raw; [by intros ?%elem_of_nil | simpl in Hlen; lia]. }
  destruct raw as [|d raw]; simpl; [by intros ?%elem_of_nil |].
  simpl in Hlen.
  destruct (N.eqb_spec d CR) as [->|Hd].
  - intros [->|Hc]%elem_of_cons; [split; [done | by left] |].
    destruct raw as [|d' raw]; [by apply elem_of_nil in Hc |].
    simpl in Hlen.
    destruct (N.eqb_spec d' LF) as [->|Hd'].
    + apply IH in Hc as [? [?|?]]; [by split; [|left] | | lia].
      split; [done |]. right. by right; right.
    + apply IH in Hc as [? [?|?]]; [by split; [|left] | | simpl; lia].
      split; [done |]. right. by right.
  - intros [->|Hc]%elem_of_cons; [split; [done | right; left] |].
    apply IH in Hc as [? [?|?]]; [by split; [|left] | | lia].
    split; [done |]. right. by right.
Qed.

Lemma universal_newlines_elem_of (raw : pystr) (c : N) :
  c ∈ universal_newlines raw → c ≠ CR ∧ (c = LF ∨ c ∈ raw).
Proof. by apply (universal_newlines_elem_of_bounded (length raw)). Qed.

Lemma universal_newlines_written (linesep t : pystr) :
  linesep = [LF] ∨ linesep = [CR; LF] →
  CR ∉ t →
  universal_newlines (write_newlines linesep t) = t.
Proof.
  intros Hsep. induction t as [|c t IH]; intros Hcr; [done |].
  apply not_elem_of_cons in Hcr as [Hc Hcr]. specialize (IH Hcr).
  unfold write_newlines in *. simpl.
  destruct (N.eqb_spec c LF) as [->|Hlf].
  - destruct Hsep as [-> | ->]; simpl; by rewrite IH.
  - simpl. destruct (N.eqb_spec c CR) as [->|_]; [done |]. by rewrite IH.
Qed.

Lemma readlines_line_break (cur rest : pystr) :
  LF ∉ cur → readlines (cur ++ LF :: rest) = (cur ++ [LF]) :: readlines rest.
Proof.
  induction cur as [|c cur IH]; intros Hlf; simpl; [done |].
  apply not_elem_of_cons in Hlf as [Hc Hlf].
  destruct (N.eqb_spec c LF) as [->|_]; [done |]. by rewrite IH.
Qed.

Lemma readlines_last_line (cur : pystr) :
  LF ∉ cur → cur ≠ [] → readlines cur = [cur].
Proof.
  induction cur as [|c cur IH]; intros Hlf Hne; [done |].
  apply not_elem_of_cons in Hlf as [Hc Hlf]. simpl.
  destruct (N.eqb_spec c LF) as [->|_]; [done |].
  destruct cur as [|d cur]; [done |]. by rewrite IH.
Qed.

Lemma isspace_LF : isspace LF = true.
Proof. reflexivity. Qed.

Lemma stripped_lines_line_break (cur rest : pystr) :
  LF ∉ cur →
  stripped_lines (cur ++ LF :: rest)
  = (if bool_decide (strip cur = []) then [] else [strip cur]) ++ stripped_lines rest.
Proof.
  intros Hlf. unfold stripped_lines. rewrite readlines_line_break by done.
  cbn [List.filter]. rewrite (strip_snoc_space cur LF isspace_LF).
  by destruct (bool_decide (strip cur = [])); cbn [negb map app];
    [| rewrite (strip_snoc_space cur LF isspace_LF)].
Qed.

Lemma stripped_lines_last_line (cur : pystr) :
  LF ∉ cur →
  stripped_lines cur = if bool_decide (strip cur = []) then [] else [strip cur].
Proof.
  intros Hlf. destruct cur as [|c cur]; [done |].
  unfold stripped_lines. rewrite readlines_last_line by done.
  cbn [List.filter].
  by destruct (bool_decide (strip (c :: cur) = [])).
Qed.

Lemma stripped_lines_app (cur a b : pystr) :
  LF ∉ cur →
  stripped_lines (cur ++ a ++ LF :: b) = stripped_lines (cur ++ a) ++ stripped_lines b.
Proof.
  revert cur. induction a as [|c a IH]; intros cur Hlf.
  - simpl. rewrite app_nil_r, stripped_lines_line_break by done.
    by rewrite (stripped_lines_last_line cur).
  - destruct (decide (c = LF)) as [->|Hc].
    + simpl.
      rewrite (stripped_lines_line_break cur (a ++ LF :: b)) by done.
      rewrite (stripped_lines_line_break cur a) by done.
      rewrite <- (assoc_L (++)). f_equal.
      apply (IH []). apply not_elem_of_nil.
    + replace (cur ++ (c :: a) ++ LF :: b) with ((cur ++ [c]) ++ a ++ LF :: b)
        by (by rewrite <- (assoc_L (++))).
      replace (cur ++ c :: a) with ((cur ++ [c]) ++ a)
        by (by rewrite <- (assoc_L (++))).
      apply IH. rewrite not_elem_of_app, not_elem_of_cons.
      split_and!; [done | congruence | apply not_elem_of_nil].
Qed.

Lemma stripped_lines_entries (cur t : pystr) :
  LF ∉ cur →
  ∀ e : pystr,
    e ∈ stripped_lines (cur ++ t) →
    e ≠ [] ∧ (LF ∉ e) ∧ strip e = e ∧ ∀ c : N, c ∈ e → c ∈ cur ++ t.
Proof.
  assert (∀ x : pystr,
            LF ∉ x →
            ∀ e : pystr,
              e ∈ (if bool_decide (strip x = []) then [] else [strip x]) →
              e ≠ [] ∧ (LF ∉ e) ∧ strip e = e ∧ ∀ c : N, c ∈ e → c ∈ x) as Hone.
  { intros x Hlf e He. case_bool_decide as Hs; [by apply elem_of_nil in He |].
    apply list_elem_of_singleton in He as ->.
    destruct (strip_ends x) as [Hh Hl].
    split_and!; [done | | by apply strip_id | apply strip_elem_of].
    intros Hin. by apply strip_elem_of in Hin. }
  revert cur. induction t as [|c t IH]; intros cur Hlf e He.
  - rewrite app_nil_r in *. rewrite stripped_lines_last_line in He by done.
    by apply Hone.
  - destruct (decide (c = LF)) as [->|Hc].
    + rewrite stripped_lines_line_break in He by done.
      apply elem_of_app in He as [He|He].
      * destruct (Hone cur Hlf e He) as (? & ? & ? & Hsub).
        split_and!; try done. intros d Hd. apply elem_of_app. left. by apply Hsub.
      * destruct (IH [] (not_elem_of_nil _) e He) as (? & ? & ? & Hsub).
        split_and!; try done. intros d Hd. apply elem_of_app. right. right.
        by apply Hsub.
    + replace (cur ++ c :: t) with ((cur ++ [c]) ++ t) in *
        by (by rewrite <- (assoc_L (++))).
      apply IH; [|done]. rewrite not_elem_of_app, not_elem_of_cons.
      split_and!; [done | congruence | apply not_elem_of_nil].
Qed.

Lemma py_join_elem_of (entries : list pystr) (c : N) :
  c ∈ py_join [LF] entries → c = LF ∨ ∃ e : pystr, e ∈ entries ∧ c ∈ e.
Proof.
  induction entries as [|e [|e' entries] IH]; simpl.
  - by intros ?%elem_of_nil.
  - intros Hc. right. exists e. split; [left | done].
  - intros [Hc|[->|Hc]%elem_of_cons]%elem_of_app.
    + right. exists e. split; [left | done].
    + by left.
    + destruct (IH Hc) as [?|(x & Hx & ?)]; [by left |].
      right. exists x. split; [by right | done].
Qed.

Lemma stripped_lines_joined (entries : list pystr) :
  (∀ e : pystr,
     e ∈ entries →
     e ≠ [] ∧ (LF ∉ e)
     ∧ (∀ c : N, head e = Some c → isspace c = false)
     ∧ (∀ c : N, last e = Some c → isspace c = false)) →
  stripped_lines (py_join [LF] entries) = entries.
Proof.
  induction entries as [|e [|e' entries] IH]; intros Hwf; [done | |].
  - destruct (Hwf e ltac:(left)) as (Hne & Hlf & Hh & Hl).
    simpl. rewrite stripped_lines_last_line by done.
    rewrite strip_id by done. by case_bool_decide.
  - destruct (Hwf e ltac:(left)) as (Hne & Hlf & Hh & Hl).
    change (py_join [LF] (e :: e' :: entries))
      with (e ++ LF :: py_join [LF] (e' :: entries)).
    rewrite stripped_lines_line_break by done.
    rewrite strip_id by done. rewrite IH.
    + by case_bool_decide.
    + intros x Hx. apply Hwf. by right.
Qed.

Lemma load_written (linesep : pystr) (entries : list pystr) :
  linesep = [LF] ∨ linesep = [CR; LF] →
  (∀ e : pystr,
     e ∈ entries →
     e ≠ [] ∧ (LF ∉ e) ∧ (CR ∉ e)
     ∧ (∀ c : N, head e = Some c → isspace c = false)
     ∧ (∀ c : N, last e = Some c → isspace c = false)) →
  stripped_lines (universal_newlines (write_newlines linesep (py_join [LF] entries)))
  = entries.
Proof.
  intros Hsep Hwf. rewrite universal_newlines_written; [| done |].
  - apply stripped_lines_joined. intros e He.
    destruct (Hwf e He) as (? & ? & ? & ? & ?). by split_and!.
  - intros [Hc|(e & He & Hc)]%py_join_elem_of; [done |].
    by destruct (Hwf e He) as (_ & _ & Hcr & _).
Qed.

Lemma universal_newlines_cons (c : N) (t : pystr) :
  c ≠ CR → universal_newlines (c :: t) = c :: universal_newlines t.
Proof.
  intros Hc. cbn [universal_newlines].
  by destruct (N.eqb_spec c CR).
Qed.

Lemma universal_newlines_CR_LF (t : pystr) :
  universal_newlines (CR :: LF :: t) = LF :: universal_newlines t.
Proof. reflexivity. Qed.

Lemma universal_newlines_CR (d : N) (t : pystr) :
  d ≠ LF → universal_newlines (CR :: d :: t) = LF :: universal_newlines (d :: t).
Proof.
  intros Hd.
  change (universal_newlines (CR :: d :: t))
    with (LF :: if (d =? LF)%N then universal_newlines t
                else universal_newlines (d :: t)).
  by destruct (N.eqb_spec d LF).
Qed.

Lemma universal_newlines_snoc_CR_bounded (n : nat) (a : pystr) :
  (length a ≤ n)%nat →
  universal_newlines (a ++ [CR]) = universal_newlines a ++ [LF].
Proof.
  revert a. induction n as [|n IH]; intros a Hlen.
  { destruct a; [done | simpl in Hlen; lia]. }
  destruct a as [|c a]; [done |]. simpl in Hlen.
  change ((c :: a) ++ [CR]) with (c :: (a ++ [CR])).
  destruct (decide (c = CR)) as [->|Hc].
  - destruct a as [|d a]; [done |]. simpl in Hlen.
    change ((d :: a) ++ [CR]) with (d :: (a ++ [CR])).
    destruct (decide (d = LF)) as [->|Hd].
    + rewrite !universal_newlines_CR_LF. by rewrite IH by lia.
    + rewrite !universal_newlines_CR by done.
      change (d :: (a ++ [CR])) with ((d :: a) ++ [CR]).
      by rewrite IH by (simpl; lia).
  - rewrite !universal_newlines_cons by done. by rewrite IH by lia.
Qed.

Lemma universal_newlines_break_bounded (n : nat) (a b : pystr) :
  (length a ≤ n)%nat →
  universal_newlines (a ++ LF :: b) = universal_newlines a ++ LF :: universal_newlines b
  ∨ ∃ a' : pystr,
      a = a' ++ [CR]
      ∧ universal_newlines (a ++ LF :: b)
        = universal_newlines a' ++ LF :: universal_newlines b.
Proof.
  assert (LF ≠ CR) as Hlfcr by done.
  revert a. induction n as [|n IH]; intros a Hlen.
  { destruct a; [left | simpl in Hlen; lia].
    simpl app. by rewrite universal_newlines_cons. }
  destruct a as [|c a].
  { left. simpl app. by rewrite universal_newlines_cons. }
  simpl in Hlen.
  change ((c :: a) ++ LF :: b) with (c :: (a ++ LF :: b)).
  destruct (decide (c = CR)) as [->|Hc].
  - destruct a as [|d a].
    { right. exists []. split; [done |]. simpl app.
      by rewrite universal_newlines_CR_LF. }
    simpl in Hlen.
    change ((d :: a) ++ LF :: b) with (d :: (a ++ LF :: b)).
    destruct (decide (d = LF)) as [->|Hd].
    + rewrite !universal_newlines_CR_LF.
      destruct (IH a ltac:(lia)) as [E|(a' & -> & E)].
      * left. by rewrite E.
      * right. exists (CR :: LF :: a'). split; [done |].
        rewrite E. by rewrite universal_newlines_CR_LF.
    + rewrite !universal_newlines_CR by done.
      change (d :: (a ++ LF :: b)) with ((d :: a) ++ LF :: b).
      destruct (IH (d :: a) ltac:(simpl; lia)) as [E|(a' & Ea & E)].
      * left. by rewrite E.
      * right. exists (CR :: a'). split; [by rewrite Ea |].
        rewrite E. destruct a' as [|d' a'']; [done |].
        injection Ea as <- _. by rewrite universal_newlines_CR.
  - rewrite !universal_newlines_cons by done.
    destruct (IH a ltac:(lia)) as [E|(a' & -> & E)].
    + left. by rewrite E.
    + right. exists (c :: a'). split; [done |].
      rewrite E. by rewrite universal_newlines_cons.
Qed.

Lemma stripped_lines_break (a b : pystr) :
  stripped_lines (a ++ LF :: b) = stripped_lines a ++ stripped_lines b.
Proof. apply (stripped_lines_app [] a b (not_elem_of_nil _)). Qed.

Lemma stripped_lines_universal_break (a b : pystr) :
  stripped_lines (universal_newlines (a ++ LF :: b))
  = stripped_lines (universal_newlines a) ++ stripped_lines (universal_newlines b).
Proof.
  destruct (universal_newlines_break_bounded (length a) a b ltac:(done))
    as [E|(a' & -> & E)]; rewrite E.
  - apply stripped_lines_break.
  - rewrite (universal_newlines_snoc_CR_bounded (length a') a') by done.
    rewrite !stripped_lines_break. simpl. by rewrite app_nil_r.
Qed.

Lemma stripped_lines_blank (raw : pystr) :
  Forall (fun c => isspace c = true) raw →
  stripped_lines (universal_newlines raw) = [].
Proof.
  intros Hblank.
  destruct (stripped_lines (universal_newlines raw)) as [|e l] eqn:E; [done |].
  exfalso.
  destruct (stripped_lines_entries [] (universal_newlines raw) (not_elem_of_nil _) e)
    as (Hne & _ & Hstrip & Hsub).
  { simpl. rewrite E. left. }
  destruct e as [|c e]; [done |].
  destruct (strip_ends (c :: e)) as [Hh _]. rewrite Hstrip in Hh.
  specialize (Hh c eq_refl).
  destruct (universal_newlines_elem_of raw c (Hsub c ltac:(left))) as [_ [->|Hc]].
  - done.
  - rewrite Forall_forall in Hblank. rewrite (Hblank c Hc) in Hh. done.
Qed.

(** X18: what [load_file_content] returns for a file that exists: every
    entry is non-empty, free of line breaks, begins and ends with a
    character that is no whitespace, and is left unchanged by [strip]; for a
    file that does not exist it returns [None]. *)
Theorem load_file_content_entries (fs : gmap string pystr) (file_path : string) :
  match load_file_content fs file_path with
  | None => fs !! file_path = None
  | Some entries =>
      is_Some (fs !! file_path)
      ∧ ∀ e : pystr,
          e ∈ entries →
          e ≠ [] ∧ strip e = e ∧ (LF ∉ e) ∧ (CR ∉ e)
          ∧ (∀ c : N, head e = Some c → isspace c = false)
          ∧ (∀ c : N, last e = Some c → isspace c = false)
  end.
Proof.
  unfold load_file_content. destruct (fs !! file_path) as [raw|]; [|done].
  split; [done |]. intros e He.
  destruct (stripped_lines_entries [] (universal_newlines raw) (not_elem_of_nil _) e He)
    as (Hne & Hlf & Hstrip & Hsub).
  destruct (strip_ends e) as [Hh Hl]. rewrite Hstrip in Hh, Hl.
  split_and!; try done.
  intros Hcr. by destruct (universal_newlines_elem_of raw CR (Hsub CR Hcr)).
Qed.

(** X19: a list of entries written to a file as ['\n'.join(entries)] is
    read back unchanged by [load_file_content], whenever no entry is empty,
    contains a line break, or begins or ends with whitespace; this holds
    for both line separators the text layer may store. *)
Theorem load_file_content_written (linesep : pystr) (fs : gmap string pystr)
    (file_path : string) (entries : list pystr) :
  linesep = [LF] ∨ linesep = [CR; LF] →
  (∀ e : pystr,
     e ∈ entries →
     e ≠ [] ∧ (LF ∉ e) ∧ (CR ∉ e)
     ∧ (∀ c : N, head e = Some c → isspace c = false)
     ∧ (∀ c : N, last e = Some c → isspace c = false)) →
  load_file_content (write_file linesep file_path (py_join [LF] entries) fs) file_path
  = Some entries.
Proof.
  intros Hsep Hwf. unfold load_file_content, write_file.
  rewrite lookup_insert_eq. by rewrite load_written.
Qed.

(** X20: the entries of a file made of two texts with a line break between
    them are the entries of the first text followed by those of the second;
    white lines between entries therefore change nothing. *)
Theorem load_file_content_concat (fs : gmap string pystr) (p1 p2 p : string)
    (t1 t2 : pystr) :
  fs !! p1 = Some t1 →
  fs !! p2 = Some t2 →
  fs !! p = Some (t1 ++ LF :: t2) →
  ∃ l1 l2 : list pystr,
    load_file_content fs p1 = Some l1
    ∧ load_file_content fs p2 = Some l2
    ∧ load_file_content fs p = Some (l1 ++ l2).
Proof.
  intros Hp1 Hp2 Hp.
  exists (stripped_lines (universal_newlines t1)),
    (stripped_lines (universal_newlines t2)).
  unfold load_file_content, pystr in *. rewrite Hp1, Hp2, Hp.
  by rewrite stripped_lines_universal_break.
Qed.

Ltac not_in_list :=
  let Hin := fresh "Hin" in
  intros Hin; vm_compute in Hin;
  repeat (apply elem_of_cons in Hin as [Hin|Hin]; [discriminate Hin |]);
  by apply elem_of_nil in Hin.

Lemma sample_entries_well_formed (e : pystr) :
  e ∈ sample_domains ++ sample_words →
  e ≠ [] ∧ (LF ∉ e) ∧ (CR ∉ e)
  ∧ (∀ c : N, head e = Some c → isspace c = false)
  ∧ (∀ c : N, last e = Some c → isspace c = false).
Proof.
  intros He. unfold sample_domains, sample_words in He. simpl in He.
  repeat (apply elem_of_cons in He as [->|He]);
    [.. | by apply elem_of_nil in He];
    (split_and!;
     [ done
     | not_in_list
     | not_in_list
     | by intros c [= <-]
     | by intros c [= <-] ]).
Qed.

(** X21: the two files [create_sample_files] writes load back as the two
    sample lists, and no file but these two and the log file is touched. *)
Theorem create_sample_files_loads (linesep : pystr) (fs : gmap string pystr) :
  linesep = [LF] ∨ linesep = [CR; LF] →
  load_file_content (create_sample_files linesep fs) "domain_list.txt"
    = Some sample_domains
  ∧ load_file_content (create_sample_files linesep fs) "word_list.txt"
    = Some sample_words
  ∧ ∀ path : string,
      path ≠ "domain_list.txt" → path ≠ "word_list.txt" → path ≠ "crawler.log" →
      create_sample_files linesep fs !! path = fs !! path.
Proof.
  intros Hsep. unfold create_sample_files, load_file_content, write_file.
  split_and!.
  - rewrite lookup_insert_ne by done. rewrite lookup_insert_eq.
    rewrite load_written; [done | done |].
    intros e He. apply sample_entries_well_formed, elem_of_app. by left.
  - rewrite lookup_insert_eq.
    rewrite load_written; [done | done |].
    intros e He. apply sample_entries_well_formed, elem_of_app. by right.
  - intros path Hd Hw _. by rewrite !lookup_insert_ne.
Qed.

(** ** The command line *)

Lemma nothing_loaded_false (l : option (list pystr)) :
  nothing_loaded l = false → ∃ entries : list pystr, l = Some entries ∧ entries ≠ [].
Proof.
  destruct l as [[|e entries]|]; simpl; try done.
  intros _. by exists (e :: entries).
Qed.

Lemma not_given_false (x : option string) :
  not_given x = false → ∃ s : string, x = Some s ∧ s ≠ EmptyString.
Proof.
  destruct x as [s|]; simpl; [|done].
  destruct (String.eqb_spec s ""); [done |]. intros _. by exists s.
Qed.

(** X22: [main] calls [run] only when [--create-samples] is off, both
    paths are given and not empty, and both files load to lists that are
    not empty; the crawler it builds has the requested page budget and
    worker count and a delay of one second, and the lists passed are the
    loaded ones. *)
Theorem main_run_called (linesep : pystr) (args : Args) (fs : gmap string pystr)
    (crawler : BanglaWebCrawler) (domains words : list pystr) (output : string) :
  main linesep args fs = RunCalled crawler domains words output →
  args_create_samples args = false
  ∧ (∃ dpath wpath : string,
       args_domains args = Some dpath ∧ dpath ≠ EmptyString
       ∧ args_words args = Some wpath ∧ wpath ≠ EmptyString
       ∧ load_file_content fs dpath = Some domains
       ∧ load_file_content fs wpath = Some words)
  ∧ domains ≠ [] ∧ words ≠ []
  ∧ crawler
    = {| max_pages_per_domain := args_max_pages args; delay := 1;
         max_workers := args_workers args |}
  ∧ output = args_output args.
Proof.
  unfold main. destruct (args_create_samples args); [done |].
  destruct (not_given (args_domains args)) eqn:Ed; [done |].
  destruct (not_given (args_words args)) eqn:Ew; [done |]. simpl.
  apply not_given_false in Ed as (dpath & Ed & Hd).
  apply not_given_false in Ew as (wpath & Ew & Hw).
  rewrite Ed, Ew. simpl.
  destruct (nothing_loaded (load_file_content fs dpath)) eqn:Ld; [done |].
  destruct (nothing_loaded (load_file_content fs wpath)) eqn:Lw; [done |]. simpl.
  apply nothing_loaded_false in Ld as (ds & Ld & Hds).
  apply nothing_loaded_false in Lw as (ws & Lw & Hws).
  rewrite Ld, Lw. simpl. intros [= <- <- <- <-].
  split_and!; try done. by exists dpath, wpath.
Qed.

(** X23: with [--create-samples], [main] writes the sample files whatever
    else is given; a second call on the files it wrote, with the two sample
    paths, calls [run] on the two sample lists. *)
Theorem main_create_samples_then_run (linesep : pystr) (args : Args)
    (fs : gmap string pystr) :
  linesep = [LF] ∨ linesep = [CR; LF] →
  args_create_samples args = true →
  ∃ fs' : gmap string pystr,
    main linesep args fs = SamplesCreated fs'
    ∧ ∀ args2 : Args,
        args_create_samples args2 = false →
        args_domains args2 = Some "domain_list.txt" →
        args_words args2 = Some "word_list.txt" →
        main linesep args2 fs'
        = RunCalled
            {| max_pages_per_domain := args_max_pages args2; delay := 1;
               max_workers := args_workers args2 |}
            sample_domains sample_words (args_output args2).
Proof.
  intros Hsep Hcs. exists (create_sample_files linesep fs). split.
  - unfold main. by rewrite Hcs.
  - intros args2 Hcs2 Hd Hw. unfold main. rewrite Hcs2, Hd, Hw. simpl.
    unfold create_sample_files, load_file_content, write_file.
    rewrite lookup_insert_ne by done. rewrite !lookup_insert_eq.
    rewrite !load_written; try done.
    + intros e He. apply sample_entries_well_formed, elem_of_app. by right.
    + intros e He. apply sample_entries_well_formed, elem_of_app. by left.
Qed.

(** X24: when one of the two list files does not exist, or holds nothing
    but whitespace, [main] returns without calling [run]. *)
Theorem main_nothing_to_crawl (linesep : pystr) (args : Args)
    (fs : gmap string pystr) (dpath wpath : string) :
  args_create_samples args = false →
  args_domains args = Some dpath → dpath ≠ EmptyString →
  args_words args = Some wpath → wpath ≠ EmptyString →
  (fs !! dpath = None
   ∨ fs !! wpath = None
   ∨ (∃ raw : pystr,
        (fs !! dpath = Some raw ∨ fs !! wpath = Some raw)
        ∧ Forall (fun c => isspace c = true) raw)) →
  main linesep args fs = NothingToCrawl.
Proof.
  intros Hcs Hd Hdne Hw Hwne Hmissing.
  unfold main. rewrite Hcs, Hd, Hw. simpl.
  destruct (String.eqb_spec dpath ""); [done |].
  destruct (String.eqb_spec wpath ""); [done |]. simpl.
  assert (nothing_loaded (load_file_content fs dpath) = true
          ∨ nothing_loaded (load_file_content fs wpath) = true) as [-> | ->];
    [| done | by rewrite orb_true_r].
  unfold load_file_content.
  destruct Hmissing as [-> | [-> | (raw & [-> | ->] & Hblank)]];
    [by left | by right | left | right];
    by rewrite stripped_lines_blank.
Qed.

(** Witness of X19: two entries, one with a blank inside, stored with
    [\r\n]. *)
Lemma load_file_content_written_witness :
  load_file_content
    (write_file [CR; LF] "list.txt"
       (py_join [LF] [of_ascii "a.test"; of_ascii "b c"]) ∅) "list.txt"
  = Some [of_ascii "a.test"; of_ascii "b c"].
Proof.
  apply (load_file_content_written [CR; LF] ∅ "list.txt"
           [of_ascii "a.test"; of_ascii "b c"]).
  - by right.
  - intros e He.
    repeat (apply elem_of_cons in He as [->|He]); [.. | by apply elem_of_nil in He];
      (split_and!;
       [done | not_in_list | not_in_list | by intros c [= <-] | by intros c [= <-]]).
Defined.

(** Witness of X20: the third file is the first, a line break, and the
    second. *)
Lemma load_file_content_concat_witness :
  ∃ l1 l2 : list pystr,
    load_file_content
      {[ "a.txt" := of_ascii "x"; "b.txt" := of_ascii "y"; "c.txt" := [120; 10; 121]%N ]}
      "a.txt" = Some l1
    ∧ load_file_content
        {[ "a.txt" := of_ascii "x"; "b.txt" := of_ascii "y"; "c.txt" := [120; 10; 121]%N ]}
        "b.txt" = Some l2
    ∧ load_file_content
        {[ "a.txt" := of_ascii "x"; "b.txt" := of_ascii "y"; "c.txt" := [120; 10; 121]%N ]}
        "c.txt" = Some (l1 ++ l2).
Proof.
  apply (load_file_content_concat _ "a.txt" "b.txt" "c.txt" (of_ascii "x") (of_ascii "y"));
    vm_compute; reflexivity.
Defined.

(** Witness of X21. *)
Lemma create_sample_files_loads_witness :
  load_file_content (create_sample_files [CR; LF] ∅) "domain_list.txt"
    = Some sample_domains
  ∧ load_file_content (create_sample_files [CR; LF] ∅) "word_list.txt"
    = Some sample_words.
Proof.
  destruct (create_sample_files_loads [CR; LF] ∅) as (Hd & Hw & _); [by right |].
  by split.
Defined.

(** Witness of X22: the sample files with the default options. *)
Lemma main_run_called_witness :
  sample_domains ≠ [] ∧ sample_words ≠ [].
Proof.
  assert (main [LF]
            {| args_domains := Some "domain_list.txt"; args_words := Some "word_list.txt";
               args_output := "results.csv"; args_max_pages := 100; args_workers := 10;
               args_create_samples := false |}
            (create_sample_files [LF] ∅)
          = RunCalled {| max_pages_per_domain := 100; delay := 1; max_workers := 10 |}
              sample_domains sample_words "results.csv") as Hmain
    by (vm_compute; reflexivity).
  destruct (main_run_called _ _ _ _ _ _ _ Hmain) as (_ & _ & Hd & Hw & _).
  by split.
Defined.

(** Witness of X23. *)
Lemma main_create_samples_then_run_witness :
  ∃ fs' : gmap string pystr,
    main [LF]
      {| args_domains := None; args_words := None; args_output := "results.csv";
         args_max_pages := 100; args_workers := 10; args_create_samples := true |} ∅
    = SamplesCreated fs'.
Proof.
  destruct (main_create_samples_then_run [LF]
              {| args_domains := None; args_words := None; args_output := "results.csv";
                 args_max_pages := 100; args_workers := 10;
                 args_create_samples := true |} ∅)
    as (fs' & Hmain & _); [by left | done |].
  by exists fs'.
Defined.

(** Witness of X24: the word list does not exist. *)
Lemma main_nothing_to_crawl_witness :
  main [LF]
    {| args_domains := Some "domain_list.txt"; args_words := Some "missing.txt";
       args_output := "results.csv"; args_max_pages := 100; args_workers := 10;
       args_create_samples := false |}
    (create_sample_files [LF] ∅)
  = NothingToCrawl.
Proof.
  apply (main_nothing_to_crawl [LF] _ _ "domain_list.txt" "missing.txt");
    try done.
  right. left. vm_compute. reflexivity.
Defined.

(** ** The crawl with the library calls that raise *)

Section RaisingFacts.
Context `{PyLib} `{LibRaises} {W : Type} `{Network W}.
Variable self : BanglaWebCrawler.

(** An iteration that ends is the iteration of [loop_body]. *)
Lemma loop_body_exc_done (keywords : list string) (url : string) (rest : list string)
    (st : CrawlState W) (e : Event) (st' : CrawlState W) :
  loop_body_exc self keywords url rest st = IterDone e st' →
  loop_body keywords url rest st = (e, st').
Proof.
  unfold loop_body_exc, loop_body, fetch_page_exc, extract_links_exc.
  destruct (decide (url ∈ visited st)); [by intros [= <- <-] |].
  destruct (urlparse_raises url); [done |].
  destruct (fetch_page url (net st)) as [[[|c html]|] net'];
    try by intros [= <- <-].
  destruct (existsb (anchor_raises url) (soup_anchor_hrefs (String c html)));
    [done |].
  unfold sleep_raises. destruct (delay self <? 0); [done | by intros [= <- <-]].
Qed.

(** What an iteration leaves behind when it raises: the URL is marked, and
    either nothing else changed ([urlparse] raised in [fetch_page]), or the
    page was fetched and its matches recorded ([extract_links] raised), or
    the whole body was run ([time.sleep] raised). *)
Lemma loop_body_exc_raised (keywords : list string) (url : string)
    (rest : list string) (st st' : CrawlState W) :
  loop_body_exc self keywords url rest st = IterRaised st' →
  (url ∉ visited st)
  ∧ ((urlparse_raises url = true
      ∧ st' = {| visited := visited st ∪ {[ url ]}; to_visit := rest;
                 pages_crawled := pages_crawled st;
                 found_matches := found_matches st; net := net st |})
     ∨ (∃ html : string,
          urlparse_raises url = false
          ∧ (fetch_page url (net st)).1 = Some html
          ∧ existsb (anchor_raises url) (soup_anchor_hrefs html) = true
          ∧ st' = {| visited := visited st ∪ {[ url ]}; to_visit := rest;
                     pages_crawled := pages_crawled st;
                     found_matches :=
                       found_matches st
                       ++ map (mkMatch url) (search_keywords html keywords);
                     net := (fetch_page url (net st)).2 |})
     ∨ ∃ html : string,
         delay self < 0
         ∧ loop_body keywords url rest st = (Processed url html, st')
         ∧ net st' = (fetch_page url (net st)).2).
Proof.
  unfold loop_body_exc, loop_body, fetch_page_exc, extract_links_exc.
  destruct (decide (url ∈ visited st)); [done |].
  destruct (urlparse_raises url); [intros [= <-]; split; [done | by left] |].
  destruct (fetch_page url (net st)) as [[[|c html]|] net']; try done.
  destruct (existsb (anchor_raises url) (soup_anchor_hrefs (String c html))) eqn:E.
  - intros [= <-]. split; [done |]. right. left. by exists (String c html).
  - unfold sleep_raises. destruct (Z.ltb_spec (delay self) 0); [|done].
    intros [= <-]. split; [done |]. right. right. by exists (String c html).
Qed.


(** Induction along the iterations of a bounded run. *)
Lemma crawl_loop_exc_ind (keywords : list string)
    (P : CrawlState W → list Event → CrawlState W → CrawlEnd → Prop) :
  (∀ st : CrawlState W, P st [] st EndExit) →
  (∀ st : CrawlState W, P st [] st EndOutOfFuel) →
  (∀ (st : CrawlState W) (url : string) (rest : list string) (st' : CrawlState W),
     to_visit st = url :: rest →
     pages_crawled st < max_pages_per_domain self →
     loop_body_exc self keywords url rest st = IterRaised st' →
     P st [] st' EndRaised) →
  (∀ (st : CrawlState W) (url : string) (rest : list string) (e : Event)
     (st' : CrawlState W) (tr : list Event) (final : CrawlState W) (how : CrawlEnd),
     to_visit st = url :: rest →
     pages_crawled st < max_pages_per_domain self →
     loop_body_exc self keywords url rest st = IterDone e st' →
     P st' tr final how →
     P st (e :: tr) final how) →
  ∀ (fuel : nat) (st : CrawlState W),
    let '(tr, final, how) := crawl_loop_exc self fuel keywords st in
    P st tr final how.
Proof.
  intros Hexit Hfuel Hraise Hstep fuel.
  induction fuel as [|fuel IH]; intros st; simpl.
  - destruct (to_visit st); [apply Hexit |].
    destruct (pages_crawled st <? max_pages_per_domain self);
      [apply Hfuel | apply Hexit].
  - destruct (to_visit st) as [|url rest] eqn:Eq; [apply Hexit |].
    destruct (Z.ltb_spec (pages_crawled st) (max_pages_per_domain self));
      [|apply Hexit].
    destruct (loop_body_exc self keywords url rest st) as [e st'|st'] eqn:Eb.
    + specialize (IH st').
      destruct (crawl_loop_exc self fuel keywords st') as [[tr final] how].
      by eapply Hstep.
    + by eapply Hraise.
Qed.




(** X1: when [urlparse(url)] raises, [fetch_page] raises before any
    request; otherwise it issues one GET, for the URL itself, and a second
    one, for the fallback URL, exactly when the first attempt ended in a
    [RequestException]; it never issues a third. *)
Theorem fetch_page_exc_requests (url : string) (s : NetState W) :
  (urlparse_raises url = true → fetch_page_exc url s = None)
  ∧ (urlparse_raises url = false →
     ∃ (body : option string) (s' : NetState W),
       fetch_page_exc url s = Some (body, s')
       ∧ requests s'
         = requests s
           ++ url :: match attempt (session_get url (world s)).1 with
                     | AttemptRaised => [fallback_url url]
                     | AttemptHtml _ | AttemptNotHtml => []
                     end
       ∧ (length (requests s') ≤ length (requests s) + 2)%nat).
Proof.
  unfold fetch_page_exc. split; intros ->; [done |].
  exists (fetch_page url s).1, (fetch_page url s).2.
  assert (requests (fetch_page url s).2
          = requests s
            ++ url :: match attempt (session_get url (world s)).1 with
                      | AttemptRaised => [fallback_url url]
                      | AttemptHtml _ | AttemptNotHtml => []
                      end) as Hshape.
  { unfold fetch_page, http_get.
    destruct (session_get url (world s)) as [o w1]. simpl.
    destruct (attempt o); simpl; try done.
    destruct (session_get (fallback_url url) w1) as [o2 w2]. simpl.
    rewrite <- (assoc_L (++)). by destruct (attempt o2). }
  split_and!; [by destruct (fetch_page url s) | exact Hshape |].
  rewrite Hshape, length_app. simpl.
  destruct (attempt (session_get url (world s)).1); simpl; lia.
Qed.

(** X12: a crawl only appends to the requests of the session: at least one
    and at most two for each call of [fetch_page] in an iteration that
    ended, and at most two more in the iteration that raised, if one did. *)
Theorem crawl_domain_exc_requests (fuel : nat) (domain : string)
    (keywords : list string) (found : list MatchRecord) (s : NetState W) :
  let '(tr, final, how) := crawl_domain_exc self fuel domain keywords found s in
  requests s `prefix_of` requests (net final)
  ∧ (length (requests s) + length (fetch_calls tr)
     ≤ length (requests (net final)))%nat
  ∧ (length (requests (net final))
     ≤ length (requests s) + 2 * length (fetch_calls tr)
       + match how with EndRaised => 2 | EndExit | EndOutOfFuel => 0 end)%nat.
Proof.
  unfold crawl_domain_exc.
  change s with (net (initial_state domain found s)) at 2 3 4.
  generalize (initial_state domain found s). revert fuel.
  assert (∀ (url : string) (n : NetState W),
            requests n `prefix_of` requests (fetch_page url n).2
            ∧ (length (requests n) + 1 ≤ length (requests (fetch_page url n).2))%nat
            ∧ (length (requests (fetch_page url n).2) ≤ length (requests n) + 2)%nat)
    as Hfetch.
  { intros url n. destruct (fetch_page_requests url n) as [-> | ->];
      (split; [by apply prefix_app_r |]); rewrite length_app; simpl; lia. }
  apply (crawl_loop_exc_ind keywords
           (fun st tr final how =>
              requests (net st) `prefix_of` requests (net final)
              ∧ (length (requests (net st)) + length (fetch_calls tr)
                 ≤ length (requests (net final)))%nat
              ∧ (length (requests (net final))
                 ≤ length (requests (net st)) + 2 * length (fetch_calls tr)
                   + match how with EndRaised => 2 | EndExit | EndOutOfFuel => 0 end)%nat)).
  - intros st. simpl. split; [done | lia].
  - intros st. simpl. split; [done | lia].
  - intros st url rest st' _ _ Hb.
    apply loop_body_exc_raised
      in Hb as [_ [[_ ->] | [(html & _ & _ & _ & ->) | (html & _ & _ & ->)]]]; simpl.
    + split; [done | lia].
    + destruct (Hfetch url (net st)) as (? & ? & ?). split; [done | lia].
    + destruct (Hfetch url (net st)) as (? & ? & ?). split; [done | lia].
  - intros st url rest e st' tr final how _ _ Hb (Hpre & Hlo & Hhi).
    apply loop_body_exc_done in Hb.
    destruct (Hfetch url (net st)) as (Hp & Hl & Hh).
    destruct (loop_body_cases keywords url rest st)
      as [(_ & Hc) | [(_ & _ & Hc) | (_ & html & _ & _ & Hc)]];
      rewrite Hc in Hb; injection Hb as <- <-; simpl in *.
    + done.
    + split; [by etrans | lia].
    + split; [by etrans | lia].
Qed.

(** A crawl only appends to [found_matches], also when it raises. *)
Lemma crawl_loop_exc_found_prefix (keywords : list string) (fuel : nat)
    (st : CrawlState W) :
  let '(_, final, _) := crawl_loop_exc self fuel keywords st in
  found_matches st `prefix_of` found_matches final.
Proof.
  assert (∀ (url : string) (rest : list string) (st0 : CrawlState W),
            found_matches st0
            `prefix_of` found_matches (loop_body keywords url rest st0).2) as Hbody.
  { intros url rest st0.
    destruct (loop_body_cases keywords url rest st0)
      as [(_ & ->) | [(_ & _ & ->) | (_ & html & _ & _ & ->)]]; simpl; try done.
    by apply prefix_app_r. }
  apply (crawl_loop_exc_ind keywords
           (fun st _ final _ => found_matches st `prefix_of` found_matches final)).
  - done.
  - done.
  - intros st0 url rest st' _ _ Hb.
    apply loop_body_exc_raised
      in Hb as [_ [[_ ->] | [(html & _ & _ & _ & ->) | (html & _ & Hb & _)]]]; simpl.
    + done.
    + by apply prefix_app_r.
    + specialize (Hbody url rest st0). by rewrite Hb in Hbody.
  - intros st0 url rest e st' tr final how _ _ Hb Hpre.
    apply loop_body_exc_done in Hb. specialize (Hbody url rest st0).
    rewrite Hb in Hbody. by etrans.
Qed.

End RaisingFacts.

(** ** A run in which one domain fails *)

Lemma crawl_or_raise_appends (self : BanglaWebCrawler) (fuel : nat)
    (domain : string) (words : list string) (sh : Shared Site) :
  shared_found sh `prefix_of` shared_found (crawl_or_raise self fuel domain words sh).2.
Proof.
  unfold crawl_or_raise, crawl_domain_exc.
  pose proof (crawl_loop_exc_found_prefix self words fuel
                (initial_state domain (shared_found sh) (shared_net sh))) as Hp.
  by destruct (crawl_loop_exc self fuel words
                 (initial_state domain (shared_found sh) (shared_net sh)))
       as [[tr final] how].
Qed.

(** Witness of C3 (amended): the task of the second domain raises. *)
Lemma run_saves_only_without_failure_witness :
  let e := run (crawl_or_raise default_crawler 10) ["d1.test"; "["] ["hello"]
             {| shared_found := []; shared_net := start d1_site |} in
  (run_outcome e = TaskRaised ∧ output_file e = None)
  ∧ [{| URL := "https://d1.test"; Matched_Word := "hello" |}]
    `prefix_of` shared_found (run_shared e).
Proof.
  intros e. subst e.
  destruct (run_saves_only_without_failure (crawl_or_raise default_crawler 10)
              ["d1.test"; "["] ["hello"]
              {| shared_found := []; shared_net := start d1_site |})
    as (_ & _ & Hraise & _ & Hkeep).
  split.
  - apply Hraise. apply wait_results_raised. vm_compute. reflexivity.
  - specialize (Hkeep
                  (fun domain sh0 =>
                     crawl_or_raise_appends default_crawler 10 domain ["hello"] sh0)
                  ["d1.test"] ["["] eq_refl).
    vm_compute in Hkeep. vm_compute. exact Hkeep.
Defined.

(** Counterexample to C3 as stated: the task of the domain [[] raises; the
    crawl of [d1.test] has completed and its record is in the shared list,
    but [run] raises and writes no output file. *)
Lemma run_failed_domain_saves_nothing :
  let e := run (crawl_or_raise default_crawler 10) ["d1.test"; "["] ["hello"]
             {| shared_found := []; shared_net := start d1_site |} in
  shared_found (run_shared e)
    = [{| URL := "https://d1.test"; Matched_Word := "hello" |}]
  ∧ run_outcome e = TaskRaised
  ∧ output_file e = None
  ∧ ¬ (∃ rows : list (list string),
         output_file e = Some rows ∧ ["https://d1.test"; "hello"] ∈ rows).
Proof.
  vm_compute. split_and!; try reflexivity.
  intros (rows & Hrows & _). discriminate Hrows.
Qed.

(** Without a failing domain the same record is written. *)
Example run_saves_results :
  output_file
    (run (crawl_or_raise default_crawler 10) ["d1.test"] ["hello"]
       {| shared_found := []; shared_net := start d1_site |})
  = Some [["URL"; "Matched Word"]; ["https://d1.test"; "hello"]].
Proof. vm_compute. reflexivity. Qed.


(** ** Examples of the amended claims *)

(** Counterexample to C5 as stated: the base URL [http://a.com/x] and the
    anchor [http://a.com:80/y] have the same host, [a.com], but the network
    locations [a.com] and [a.com:80] differ, and the link is dropped. *)
Lemma extract_links_same_host_dropped :
  let base_url := "http://a.com/x" in
  let html := "<a href='http://a.com:80/y'>y</a>" in
  soup_anchor_hrefs html = ["http://a.com:80/y"]
  ∧ urljoin base_url "http://a.com:80/y" = "http://a.com:80/y"
  ∧ hostname_of (netloc (urlparse "http://a.com:80/y")) = Some "a.com"
  ∧ hostname_of (netloc (urlparse base_url)) = Some "a.com"
  ∧ netloc (urlparse "http://a.com:80/y") ≠ netloc (urlparse base_url)
  ∧ elements (extract_links base_url html) = [].
Proof. vm_compute. by split_and!. Qed.



(** The seed URL of the domain line [[] does not parse: [crawl_domain]
    raises in its first iteration, before any request. *)
Example crawl_domain_seed_raises :
  let '(tr, final, how) :=
    crawl_domain_exc default_crawler 10 "[" ["hello"] [] (start d1_site) in
  how = EndRaised ∧ tr = [] ∧ requests (net final) = [] ∧ pages_crawled final = 0.
Proof. vm_compute. by split_and!. Qed.

(** With a negative delay the crawl raises at the end of its first page. *)
Example crawl_domain_sleep_raises :
  let '(tr, final, how) :=
    crawl_domain_exc {| max_pages_per_domain := 100; delay := -1; max_workers := 10 |}
      10 "d1.test" ["hello"] [] (start d1_site) in
  how = EndRaised
  ∧ to_visit final = ["https://d1.test/page2"]
  ∧ pages_crawled final = 1
  ∧ found_matches final = [{| URL := "https://d1.test"; Matched_Word := "hello" |}].
Proof. vm_compute. by split_and!. Qed.


(** Witness of X1: the seed URL [https://[] raises before any request;
    [https://f.test] costs two requests. *)
Lemma fetch_page_exc_requests_witness :
  fetch_page_exc "https://[" (start self_link_site) = None
  ∧ ∃ (body : option string) (s' : NetState Site),
      fetch_page_exc "https://f.test" (start self_link_site) = Some (body, s')
      ∧ requests s' = ["https://f.test"; "http://f.test"].
Proof.
  split.
  - apply (fetch_page_exc_requests "https://[" (start self_link_site)). reflexivity.
  - destruct (fetch_page_exc_requests "https://f.test" (start self_link_site))
      as [_ Hret].
    destruct Hret as (body & s' & Hfetch & Hreq & _); [reflexivity |].
    exists body, s'. split; [exact Hfetch |]. rewrite Hreq. reflexivity.
Defined.

(** Witness of X12: the crawl of [d2.test], which raises in its second
    iteration after one request. *)
Lemma crawl_domain_exc_requests_witness :
  let '(tr, final, how) :=
    crawl_domain_exc default_crawler 10 "d2.test" ["hello"] []
      (start broken_anchor_site) in
  requests (start broken_anchor_site) `prefix_of` requests (net final)
  ∧ (length (requests (start broken_anchor_site)) + length (fetch_calls tr)
     ≤ length (requests (net final)))%nat
  ∧ (length (requests (net final))
     ≤ length (requests (start broken_anchor_site)) + 2 * length (fetch_calls tr)
       + match how with EndRaised => 2 | EndExit | EndOutOfFuel => 0 end)%nat.
Proof.
  pose proof (crawl_domain_exc_requests default_crawler 10 "d2.test" ["hello"] []
                (start broken_anchor_site)) as Hrun.
  exact Hrun.
Defined.
